(** * Github-User-Activity: the activity reporter of [main.go]

    A shallow embedding of [getGithubActivity] (and of [main]) together with
    the parts of the Go standard library it runs through: [fmt.Printf] with
    the verbs [%s], [%d] and [%v], [strings.Title], and the type-directed
    decoding of [encoding/json] into the structs [Event], [Repo], [Issue],
    [Forkee] and [Payload].

    Go strings are byte strings: they are modelled by [string], one [ascii]
    per byte.  Standard output is the text written to it. *)

From Stdlib Require Import ZArith NArith Bool List String Ascii Lia.
From Stdlib Require Import DecimalString DecimalZ.
Import ListNotations.

Local Open Scope string_scope.
Local Open Scope Z_scope.

(* ================================================================== *)
(** ** Bytes, runes and text *)

Definition rune := Z.

Definition byte_val (b : ascii) : Z := Z.of_N (N_of_ascii b).

(** Go's conversion [byte(x)]: the low eight bits. *)
Definition to_byte (x : Z) : ascii := ascii_of_N (Z.to_N (x mod 256)).

Fixpoint drop (n : nat) (s : string) : string :=
  match n, s with
  | O, _ => s
  | S _, EmptyString => EmptyString
  | S n', String _ s' => drop n' s'
  end.

Definition take (n : nat) (s : string) : string := substring 0 n s.

(** [%d] of an integer: its decimal digits, with a sign when negative. *)
Definition itoa (x : Z) : string := NilEmpty.string_of_int (Z.to_int x).

Definition atoi (s : string) : option Z := option_map Z.of_int (NilEmpty.int_of_string s).

(* ================================================================== *)
(** ** Package [unicode/utf8] *)

Module utf8.

Definition RuneError : rune := 0xFFFD.
Definition RuneSelf : Z := 0x80.
Definition MaxRune : rune := 0x10FFFF.
Definition surrogateMin : Z := 0xD800.
Definition surrogateMax : Z := 0xDFFF.
Definition rune1Max : Z := 0x7F.
Definition rune2Max : Z := 0x7FF.
Definition rune3Max : Z := 0xFFFF.

Definition t2 : Z := 0xC0.
Definition t3 : Z := 0xE0.
Definition t4 : Z := 0xF0.
Definition tx : Z := 0x80.
Definition maskx : Z := 0x3F.
Definition mask2 : Z := 0x1F.
Definition mask3 : Z := 0x0F.
Definition mask4 : Z := 0x07.
Definition locb : Z := 0x80.
Definition hicb : Z := 0xBF.

(** The entries of the table [first]: the low three bits give the size of
    the sequence, the high four bits index [acceptRanges]. *)
Definition xx : Z := 0xF1.
Definition as_ : Z := 0xF0.
Definition s1 : Z := 0x02.
Definition s2 : Z := 0x13.
Definition s3 : Z := 0x03.
Definition s4 : Z := 0x23.
Definition s5 : Z := 0x34.
Definition s6 : Z := 0x04.
Definition s7 : Z := 0x44.

Definition first (b : Z) : Z :=
  if b <? 0x80 then as_
  else if b <? 0xC2 then xx
  else if b <? 0xE0 then s1
  else if b =? 0xE0 then s2
  else if b <? 0xED then s3
  else if b =? 0xED then s4
  else if b <? 0xF0 then s3
  else if b =? 0xF0 then s5
  else if b <? 0xF4 then s6
  else if b =? 0xF4 then s7
  else xx.

Definition acceptRanges (i : Z) : Z * Z :=
  if i =? 1 then (0xA0, hicb)
  else if i =? 2 then (locb, 0x9F)
  else if i =? 3 then (0x90, hicb)
  else if i =? 4 then (locb, 0x8F)
  else (locb, hicb).

(** [DecodeRuneInString]: the first rune of [s] and its width in bytes;
    [(RuneError, 0)] on the empty string and [(RuneError, 1)] on a byte
    that starts no well-formed sequence. *)
Definition DecodeRuneInString (s : string) : rune * nat :=
  match s with
  | EmptyString => (RuneError, 0%nat)
  | String c0 r0 =>
    let b0 := byte_val c0 in
    let x := first b0 in
    if x >=? as_ then
      (if x =? as_ then b0 else RuneError, 1%nat)
    else
      let sz := Z.land x 7 in
      let accept := acceptRanges (Z.shiftr x 4) in
      match r0 with
      | EmptyString => (RuneError, 1%nat)
      | String c1 r1 =>
        let b1 := byte_val c1 in
        if (b1 <? fst accept) || (snd accept <? b1) then (RuneError, 1%nat)
        else if sz <=? 2 then
          (Z.lor (Z.shiftl (Z.land b0 mask2) 6) (Z.land b1 maskx), 2%nat)
        else
          match r1 with
          | EmptyString => (RuneError, 1%nat)
          | String c2 r2 =>
            let b2 := byte_val c2 in
            if (b2 <? locb) || (hicb <? b2) then (RuneError, 1%nat)
            else if sz <=? 3 then
              (Z.lor (Z.lor (Z.shiftl (Z.land b0 mask3) 12)
                            (Z.shiftl (Z.land b1 maskx) 6))
                     (Z.land b2 maskx), 3%nat)
            else
              match r2 with
              | EmptyString => (RuneError, 1%nat)
              | String c3 _ =>
                let b3 := byte_val c3 in
                if (b3 <? locb) || (hicb <? b3) then (RuneError, 1%nat)
                else
                  (Z.lor (Z.lor (Z.lor (Z.shiftl (Z.land b0 mask4) 18)
                                       (Z.shiftl (Z.land b1 maskx) 12))
                                (Z.shiftl (Z.land b2 maskx) 6))
                         (Z.land b3 maskx), 4%nat)
              end
          end
      end
  end.

Definition enc3 (r : rune) : string :=
  String (to_byte (Z.lor t3 (Z.shiftr r 12)))
 (String (to_byte (Z.lor tx (Z.land (Z.shiftr r 6) maskx)))
 (String (to_byte (Z.lor tx (Z.land r maskx))) EmptyString)).

(** [AppendRune] onto the empty buffer.  The comparisons of the source are
    made on [uint32(r)], so a negative rune falls in the [RuneError] case. *)
Definition EncodeRune (r : rune) : string :=
  let i := r mod 2 ^ 32 in
  if i <=? rune1Max then String (to_byte r) EmptyString
  else if i <=? rune2Max then
    String (to_byte (Z.lor t2 (Z.shiftr r 6)))
   (String (to_byte (Z.lor tx (Z.land r maskx))) EmptyString)
  else if (MaxRune <? i) || ((surrogateMin <=? i) && (i <=? surrogateMax)) then
    enc3 RuneError
  else if i <=? rune3Max then enc3 r
  else
    String (to_byte (Z.lor t4 (Z.shiftr r 18)))
   (String (to_byte (Z.lor tx (Z.land (Z.shiftr r 12) maskx)))
   (String (to_byte (Z.lor tx (Z.land (Z.shiftr r 6) maskx)))
   (String (to_byte (Z.lor tx (Z.land r maskx))) EmptyString))).

(** [for i, c := range s]: the runes of [s] in order, each with the bytes
    it was decoded from.  A string of [n] bytes holds at most [n] runes. *)
Fixpoint range_fuel (n : nat) (s : string) : list (rune * string) :=
  match n with
  | O => []
  | S n' =>
    match s with
    | EmptyString => []
    | String _ _ =>
      let '(c, w) := DecodeRuneInString s in
      (c, take w s) :: range_fuel n' (drop w s)
    end
  end.

Definition range (s : string) : list (rune * string) :=
  range_fuel (String.length s) s.

End utf8.

(* ================================================================== *)
(** ** Package [unicode] *)

Module unicode.

(** The tables of package [unicode] are not part of the program.  The
    functions below consult them for runes above [MaxASCII] only. *)
Record Tables := {
  IsLetter : rune -> bool;
  IsDigit : rune -> bool;
  IsSpace : rune -> bool;
  (** [To(TitleCase, r)] *)
  To_TitleCase : rune -> rune
}.

Definition MaxASCII : rune := 0x7F.

(** The code of an ASCII character, as in the rune literal ['a']. *)
Definition ch (c : ascii) : rune := byte_val c.

Definition ToTitle (U : Tables) (r : rune) : rune :=
  if r <=? MaxASCII then
    if (ch "a" <=? r) && (r <=? ch "z") then r - (ch "a" - ch "A") else r
  else To_TitleCase U r.

End unicode.

(* ================================================================== *)
(** ** Package [strings]: [Map] and [Title] *)

Module strings.

Import unicode.

Section Map.
(** The mapping [Title] passes to [Map] is a closure over a variable:
    here [mapping] takes the closure's state and returns the new one. *)
Context {St : Type}.
Variable mapping : St -> rune -> rune * St.

(** [if r >= 0 { b.WriteRune(r) }] *)
Definition WriteRune (r : rune) : string :=
  if r >=? 0 then utf8.EncodeRune r else EmptyString.

(** The second loop of [Map]: every rune is written anew. *)
Fixpoint Map_write (st : St) (cs : list (rune * string)) : string :=
  match cs with
  | [] => EmptyString
  | (c, _) :: cs' =>
    let '(r, st') := mapping st c in
    WriteRune r ++ Map_write st' cs'
  end.

(** The first loop of [Map]: the input is kept as it is up to the first
    rune the mapping changes, or the first byte that is not UTF-8. *)
Fixpoint Map_scan (st : St) (cs : list (rune * string)) : string :=
  match cs with
  | [] => EmptyString
  | (c, bytes) :: cs' =>
    let '(r, st') := mapping st c in
    if (r =? c) && negb (c =? utf8.RuneError) then bytes ++ Map_scan st' cs'
    else if (c =? utf8.RuneError)
            && negb (Nat.eqb (String.length bytes) 1) && (r =? c)
    then bytes ++ Map_scan st' cs'
    else WriteRune r ++ Map_write st' cs'
  end.

Definition Map (st : St) (s : string) : string :=
  Map_scan st (utf8.range s).
End Map.

Section Title.
Variable U : Tables.

Definition isSeparator (r : rune) : bool :=
  if r <=? 0x7F then
    if (ch "0" <=? r) && (r <=? ch "9") then false
    else if (ch "a" <=? r) && (r <=? ch "z") then false
    else if (ch "A" <=? r) && (r <=? ch "Z") then false
    else if r =? ch "_" then false
    else true
  else if IsLetter U r || IsDigit U r then false
  else IsSpace U r.

(** The closure of [Title]; its state is the variable [prev]. *)
Definition Title_mapping (prev : rune) (r : rune) : rune * rune :=
  if isSeparator prev then (ToTitle U r, r) else (r, r).

Definition Title (s : string) : string :=
  Map Title_mapping (ch " ") s.
End Title.

End strings.

(* ================================================================== *)
(** ** Package [encoding/json]: documents and decoding into Go values *)

#[local] Set Warnings "-register-all".

(** A JSON value as the decoder sees it.  Of a number only one thing
    matters to the targets of this program: whether [strconv.ParseFloat]
    accepts its literal as a [float64], which is what storing it in an
    [any] requires ([1e999] does not fit).  The members of an object are
    kept in the order of the text, duplicates included. *)
Inductive json : Type :=
| JNull
| JBool (b : bool)
| JNumber (fits_float64 : bool)
| JString (s : string)
| JArray (elems : list json)
| JObject (members : list (string * json)).

(** The text handed to [json.Unmarshal], read the way its scanner reads
    it before anything is stored: either the text is not JSON, and the
    scanner's [SyntaxError] has the given message, or it spells a value. *)
Inductive json_text : Type :=
| Malformed (syntax_error : string)
| Document (v : json).

Module json_decode.

(** Storing a value in an [any] (the elements of [Commits]).  Every value
    has a Go counterpart; the one failure is a number that is no
    [float64], wherever it occurs in the value. *)
Fixpoint any_ok (v : json) : bool :=
  match v with
  | JNumber fits => fits
  | JArray elems => forallb any_ok elems
  | JObject members => forallb (fun kv => let '(_, x) := kv in any_ok x) members
  | _ => true
  end.

(** Keys are matched against field names exactly or, failing that, up to
    Unicode simple case folding.  All field names of this program are
    ASCII, and the only runes outside ASCII that fold to an ASCII letter
    are U+017F (long s, bytes C5 BF) and U+212A (Kelvin sign, bytes
    E2 84 AA); [foldName] maps both and upper-cases ASCII letters. *)
Fixpoint foldName (s : string) : string :=
  match s with
  | EmptyString => EmptyString
  | String c s' =>
    let b := byte_val c in
    let plain :=
      String (if (97 <=? b) && (b <=? 122) then to_byte (b - 32) else c)
             (foldName s') in
    match s' with
    | String c1 s1 =>
      if (b =? 0xC5) && (byte_val c1 =? 0xBF) then String "S" (foldName s1)
      else
        match s1 with
        | String c2 s2 =>
          if (b =? 0xE2) && (byte_val c1 =? 0x84) && (byte_val c2 =? 0xAA)
          then String "K" (foldName s2)
          else plain
        | EmptyString => plain
        end
    | EmptyString => plain
    end
  end.

Section Struct.
(** A struct type [T]: each field has its JSON name and the function
    that stores a value in it, given the struct as it is so far. *)
Context {T : Type}.
Definition field : Type := string * (json -> T -> option T).
Variable fields : list field.

Definition byExactName (key : string) : option field :=
  find (fun f => String.eqb (fst f) key) fields.

Definition byFoldedName (key : string) : option field :=
  find (fun f => String.eqb (foldName (fst f)) (foldName key)) fields.

Definition findField (key : string) : option field :=
  match byExactName key with
  | Some f => Some f
  | None => byFoldedName key
  end.

(** The members of an object, in order: a member whose key names a field
    is stored in it, any other is skipped.  [None] stands for a decoding
    that ends with an [UnmarshalTypeError]. *)
Fixpoint object_members (members : list (string * json)) (cur : T) : option T :=
  match members with
  | [] => Some cur
  | (key, v) :: rest =>
    match findField key with
    | Some f =>
      match snd f v cur with
      | Some cur' => object_members rest cur'
      | None => None
      end
    | None => object_members rest cur
    end
  end.

(** A value stored in a struct: [null] leaves it as it is, an object
    sets its fields, anything else is a type error. *)
Definition into_struct (v : json) (cur : T) : option T :=
  match v with
  | JNull => Some cur
  | JObject members => object_members members cur
  | _ => None
  end.
End Struct.

(** A value stored in a [string]: [null] leaves it as it is. *)
Definition into_string (v : json) (cur : string) : option string :=
  match v with
  | JNull => Some cur
  | JString s => Some s
  | _ => None
  end.

(** A value stored in a [[]any]: [null] makes it [nil], an array replaces
    its elements. *)
Definition into_anys (v : json) (cur : list json) : option (list json) :=
  match v with
  | JNull => Some []
  | JArray elems => if forallb any_ok elems then Some elems else None
  | _ => None
  end.

(** A value stored in a slice of structs that is [nil] so far: each
    element starts from the zero value [zero]. *)
Fixpoint array_elems {T : Type} (into : json -> T -> option T) (zero : T)
    (elems : list json) : option (list T) :=
  match elems with
  | [] => Some []
  | v :: rest =>
    match into v zero with
    | Some x =>
      match array_elems into zero rest with
      | Some xs => Some (x :: xs)
      | None => None
      end
    | None => None
    end
  end.

Definition into_slice {T : Type} (into : json -> T -> option T) (zero : T)
    (v : json) : option (list T) :=
  match v with
  | JNull => Some []
  | JArray elems => array_elems into zero elems
  | _ => None
  end.

End json_decode.

(* ================================================================== *)
(** ** The types of [main.go] *)

Record Repo := { Repo_Name : string }.

Record Issue := { Issue_Title : string }.

Record Forkee := { Forkee_FullName : string }.

Record Payload := {
  Payload_Action : string;
  Payload_RefType : string;
  Payload_Commits : list json;
  Payload_Issue : Issue;
  Payload_Forkee : Forkee;
  Payload_PullRequest : Issue
}.

Record Event := {
  Event_Type : string;
  Event_Repo : Repo;
  Event_Payload : Payload
}.

(** The zero values. *)
Definition Repo_zero : Repo := {| Repo_Name := EmptyString |}.
Definition Issue_zero : Issue := {| Issue_Title := EmptyString |}.
Definition Forkee_zero : Forkee := {| Forkee_FullName := EmptyString |}.
Definition Payload_zero : Payload :=
  {| Payload_Action := EmptyString; Payload_RefType := EmptyString;
     Payload_Commits := []; Payload_Issue := Issue_zero;
     Payload_Forkee := Forkee_zero; Payload_PullRequest := Issue_zero |}.
Definition Event_zero : Event :=
  {| Event_Type := EmptyString; Event_Repo := Repo_zero;
     Event_Payload := Payload_zero |}.

(** The fields with their [json:] tags. *)
Import json_decode.

Definition Repo_fields : list (@field Repo) :=
  [ ("name", fun v r => option_map (fun s => {| Repo_Name := s |})
                                   (into_string v (Repo_Name r))) ].

Definition Issue_fields : list (@field Issue) :=
  [ ("title", fun v i => option_map (fun s => {| Issue_Title := s |})
                                    (into_string v (Issue_Title i))) ].

Definition Forkee_fields : list (@field Forkee) :=
  [ ("full_name", fun v f => option_map (fun s => {| Forkee_FullName := s |})
                                        (into_string v (Forkee_FullName f))) ].

Definition set_Action (p : Payload) (x : string) : Payload :=
  {| Payload_Action := x; Payload_RefType := Payload_RefType p;
     Payload_Commits := Payload_Commits p; Payload_Issue := Payload_Issue p;
     Payload_Forkee := Payload_Forkee p;
     Payload_PullRequest := Payload_PullRequest p |}.
Definition set_RefType (p : Payload) (x : string) : Payload :=
  {| Payload_Action := Payload_Action p; Payload_RefType := x;
     Payload_Commits := Payload_Commits p; Payload_Issue := Payload_Issue p;
     Payload_Forkee := Payload_Forkee p;
     Payload_PullRequest := Payload_PullRequest p |}.
Definition set_Commits (p : Payload) (x : list json) : Payload :=
  {| Payload_Action := Payload_Action p; Payload_RefType := Payload_RefType p;
     Payload_Commits := x; Payload_Issue := Payload_Issue p;
     Payload_Forkee := Payload_Forkee p;
     Payload_PullRequest := Payload_PullRequest p |}.
Definition set_Issue (p : Payload) (x : Issue) : Payload :=
  {| Payload_Action := Payload_Action p; Payload_RefType := Payload_RefType p;
     Payload_Commits := Payload_Commits p; Payload_Issue := x;
     Payload_Forkee := Payload_Forkee p;
     Payload_PullRequest := Payload_PullRequest p |}.
Definition set_Forkee (p : Payload) (x : Forkee) : Payload :=
  {| Payload_Action := Payload_Action p; Payload_RefType := Payload_RefType p;
     Payload_Commits := Payload_Commits p; Payload_Issue := Payload_Issue p;
     Payload_Forkee := x;
     Payload_PullRequest := Payload_PullRequest p |}.
Definition set_PullRequest (p : Payload) (x : Issue) : Payload :=
  {| Payload_Action := Payload_Action p; Payload_RefType := Payload_RefType p;
     Payload_Commits := Payload_Commits p; Payload_Issue := Payload_Issue p;
     Payload_Forkee := Payload_Forkee p;
     Payload_PullRequest := x |}.

Definition Payload_fields : list (@field Payload) :=
  [ ("action", fun v p => option_map (set_Action p) (into_string v (Payload_Action p)));
    ("ref_type", fun v p => option_map (set_RefType p) (into_string v (Payload_RefType p)));
    ("commits", fun v p => option_map (set_Commits p) (into_anys v (Payload_Commits p)));
    ("issue", fun v p => option_map (set_Issue p)
                           (into_struct Issue_fields v (Payload_Issue p)));
    ("forkee", fun v p => option_map (set_Forkee p)
                            (into_struct Forkee_fields v (Payload_Forkee p)));
    ("pull_request", fun v p => option_map (set_PullRequest p)
                                  (into_struct Issue_fields v (Payload_PullRequest p))) ].

Definition Event_fields : list (@field Event) :=
  [ ("type", fun v e => option_map
       (fun s => {| Event_Type := s; Event_Repo := Event_Repo e;
                    Event_Payload := Event_Payload e |})
       (into_string v (Event_Type e)));
    ("repo", fun v e => option_map
       (fun r => {| Event_Type := Event_Type e; Event_Repo := r;
                    Event_Payload := Event_Payload e |})
       (into_struct Repo_fields v (Event_Repo e)));
    ("payload", fun v e => option_map
       (fun p => {| Event_Type := Event_Type e; Event_Repo := Event_Repo e;
                    Event_Payload := p |})
       (into_struct Payload_fields v (Event_Payload e))) ].

Definition into_Payload : json -> Payload -> option Payload :=
  into_struct Payload_fields.

Definition into_Event : json -> Event -> option Event :=
  into_struct Event_fields.

(** A value stored in [events], which is [nil] so far. *)
Definition into_events (v : json) : option (list Event) :=
  into_slice into_Event Event_zero v.

(* ================================================================== *)
(** ** The network, as far as the program observes it *)

(** What [io.ReadAll(resp.Body)] returns: an error, with its text, or the
    bytes of the body, as the text they are to [json.Unmarshal]. *)
Inductive read_result : Type :=
| Read_err (err : string)
| Read_ok (body : json_text).

Record Response := {
  StatusCode : Z;
  Body : read_result
}.

(** What [http.Get] returns: an error, with its text, or a response. *)
Inductive get_result : Type :=
| Get_err (err : string)
| Get_ok (resp : Response).

(* ================================================================== *)
(** ** [main.go] *)

Definition LF : string := String "010" EmptyString.
Definition quote : string := String "034" EmptyString.

Section Reporter.

Variable U : unicode.Tables.
(** [http.Get], as a function of the URL. *)
Variable http_Get : string -> get_result.
(** The text of the [UnmarshalTypeError] that [json.Unmarshal] returns
    for a document it cannot store in a [[]Event]. *)
Variable UnmarshalTypeError_Error : json -> string.

(** [json.Unmarshal(body, &events)]: the events, or the error's text. *)
Definition json_Unmarshal (body : json_text) : list Event + string :=
  match body with
  | Malformed syntax_error => inr syntax_error
  | Document v =>
    match into_events v with
    | Some events => inl events
    | None => inr (UnmarshalTypeError_Error v)
    end
  end.

(** The body of the loop over the events: what one event prints. *)
Definition renderEvent (event : Event) : string :=
  let Type_ := Event_Type event in
  let repo := Repo_Name (Event_Repo event) in
  let payload := Event_Payload event in
  if String.eqb Type_ "PushEvent" then
    "- Pushed " ++ itoa (Z.of_nat (List.length (Payload_Commits payload)))
      ++ " commit(s) to " ++ repo ++ LF
  else if String.eqb Type_ "CreateEvent" then
    "- Created a new " ++ Payload_RefType payload ++ " in " ++ repo ++ LF
  else if String.eqb Type_ "IssuesEvent" then
    "- " ++ strings.Title U (Payload_Action payload) ++ " an issue in " ++ repo
      ++ ": " ++ quote ++ Issue_Title (Payload_Issue payload) ++ quote ++ LF
  else if String.eqb Type_ "IssueCommentEvent" then
    "- Commented on an issue in " ++ repo
      ++ ": " ++ quote ++ Issue_Title (Payload_Issue payload) ++ quote ++ LF
  else if String.eqb Type_ "WatchEvent" then
    "- " ++ strings.Title U (Payload_Action payload) ++ " watching " ++ repo ++ LF
  else if String.eqb Type_ "ForkEvent" then
    "- Forked " ++ repo ++ " to " ++ Forkee_FullName (Payload_Forkee payload) ++ LF
  else if String.eqb Type_ "PullRequestEvent" then
    "- " ++ strings.Title U (Payload_Action payload) ++ " a pull request in " ++ repo
      ++ ": " ++ quote ++ Issue_Title (Payload_PullRequest payload) ++ quote ++ LF
  else if String.eqb Type_ "PublicEvent" then
    "- Made " ++ repo ++ " public" ++ LF
  else
    "- Performed a " ++ Type_ ++ " on " ++ repo ++ LF.

(** [for _, event := range events { ... }], from the output so far. *)
Definition renderEvents (events : list Event) (stdout : string) : string :=
  fold_left (fun out event => out ++ renderEvent event) events stdout.

Definition header (username : string) : string :=
  "Recent Activity for " ++ username ++ ":" ++ LF ++ LF.

(** [getGithubActivity]: the text it writes to standard output. *)
Definition getGithubActivity (username : string) : string :=
  let apiURL := "https://api.github.com/users/" ++ username ++ "/events" in
  match http_Get apiURL with
  | Get_err err =>
    "Error: Could not reach GitHub API. Reason: " ++ err ++ LF
  | Get_ok resp =>
    if StatusCode resp =? 404 then
      "Error: Could not find GitHub user '" ++ username ++ "'." ++ LF
    else if negb (StatusCode resp =? 200) then
      "Error: Received status code " ++ itoa (StatusCode resp)
        ++ " from GitHub API." ++ LF
    else
      match Body resp with
      | Read_err err =>
        "Error: Failed to read response body. Reason: " ++ err ++ LF
      | Read_ok body =>
        match json_Unmarshal body with
        | inr err =>
          "Error: Failed to parse the response from the GitHub API. Reason: "
            ++ err ++ LF
        | inl events =>
          let stdout := header username in
          if Nat.eqb (List.length events) 0 then
            stdout ++ "No recent public activity found." ++ LF
          else
            renderEvents events stdout
        end
      end
  end.

(** The request of [getGithubActivity username] is answered with status
    200 and the body is read without error. *)
Definition ok_response (username : string) (body : json_text) : Prop :=
  exists resp,
    http_Get ("https://api.github.com/users/" ++ username ++ "/events") = Get_ok resp
    /\ StatusCode resp = 200 /\ Body resp = Read_ok body.

(** [main]: standard output and the exit status, from [os.Args]. *)
Definition main (Args : list string) : string * Z :=
  match Args with
  | [_; githubUsername] => (getGithubActivity githubUsername, 0)
  | _ => ("Usage: go run github_activity.go <username>" ++ LF, 1)
  end.

End Reporter.

(* ================================================================== *)
(** ** Vocabulary of the specification *)

(** The texts of a list, one after the other. *)
Definition flat (l : list string) : string :=
  fold_right append EmptyString l.

Definition starts_with (p s : string) : Prop := exists rest, s = p ++ rest.

(** *** Capitalized action

    The action with its first letter upper-cased and the rest unchanged,
    as the specification words it. *)
Definition upper_byte (c : ascii) : ascii :=
  let b := byte_val c in
  if (97 <=? b) && (b <=? 122) then to_byte (b - 32) else c.

Definition capitalize_first (s : string) : string :=
  match s with
  | EmptyString => EmptyString
  | String c s' => String (upper_byte c) s'
  end.

(** A byte of a word: an ASCII letter, a digit or an underscore. *)
Definition word_byte (c : ascii) : bool :=
  let b := byte_val c in
  ((48 <=? b) && (b <=? 57)) || ((97 <=? b) && (b <=? 122))
  || ((65 <=? b) && (b <=? 90)) || (b =? 95).

Fixpoint single_word (s : string) : bool :=
  match s with
  | EmptyString => true
  | String c s' => word_byte c && single_word s'
  end.

(** The chunks [range] cuts an ASCII text into: one per byte. *)
Fixpoint byte_chunks (s : string) : list (rune * string) :=
  match s with
  | EmptyString => []
  | String c s' => (byte_val c, String c EmptyString) :: byte_chunks s'
  end.

Fixpoint all_ascii (s : string) : bool :=
  match s with
  | EmptyString => true
  | String c s' => (byte_val c <? 128) && all_ascii s'
  end.

(** *** Lines of text *)

Fixpoint no_LF (s : string) : bool :=
  match s with
  | EmptyString => true
  | String c s' => negb (Ascii.eqb c "010") && no_LF s'
  end.

(** The lines of a text, each with the line feed that ends it; [cur] is
    the line begun so far. *)
Fixpoint lines_from (cur : string) (s : string) : list string :=
  match s with
  | EmptyString => match cur with EmptyString => [] | _ => [cur] end
  | String c s' =>
    if Ascii.eqb c "010" then (cur ++ LF) :: lines_from EmptyString s'
    else lines_from (cur ++ String c EmptyString) s'
  end.

Definition text_lines (s : string) : list string := lines_from EmptyString s.

(** The texts that are substituted in the line of an event, following
    the cases of the switch (the count of a push is a number, and holds
    no line feed). *)
Definition line_texts (U : unicode.Tables) (e : Event) : list string :=
  let Type_ := Event_Type e in
  let repo := Repo_Name (Event_Repo e) in
  let payload := Event_Payload e in
  if String.eqb Type_ "PushEvent" then [repo]
  else if String.eqb Type_ "CreateEvent" then [Payload_RefType payload; repo]
  else if String.eqb Type_ "IssuesEvent" then
    [strings.Title U (Payload_Action payload); repo;
     Issue_Title (Payload_Issue payload)]
  else if String.eqb Type_ "IssueCommentEvent" then
    [repo; Issue_Title (Payload_Issue payload)]
  else if String.eqb Type_ "WatchEvent" then
    [strings.Title U (Payload_Action payload); repo]
  else if String.eqb Type_ "ForkEvent" then
    [repo; Forkee_FullName (Payload_Forkee payload)]
  else if String.eqb Type_ "PullRequestEvent" then
    [strings.Title U (Payload_Action payload); repo;
     Issue_Title (Payload_PullRequest payload)]
  else if String.eqb Type_ "PublicEvent" then [repo]
  else [Type_; repo].

(** None of the texts substituted in the line of the event holds a line
    feed. *)
Definition plain_line (U : unicode.Tables) (e : Event) : bool :=
  forallb no_LF (line_texts U e).

(** A text that is one line: it ends with its only line feed. *)
Definition one_line (s : string) : Prop :=
  exists t, s = t ++ LF /\ no_LF t = true.

(** *** The payload fields a category reads

    By the JSON names of the fields, following the cases of the switch. *)
Definition reads (Type_ : string) : list string :=
  if String.eqb Type_ "PushEvent" then ["commits"]
  else if String.eqb Type_ "CreateEvent" then ["ref_type"]
  else if String.eqb Type_ "IssuesEvent" then ["action"; "issue"]
  else if String.eqb Type_ "IssueCommentEvent" then ["issue"]
  else if String.eqb Type_ "WatchEvent" then ["action"]
  else if String.eqb Type_ "ForkEvent" then ["forkee"]
  else if String.eqb Type_ "PullRequestEvent" then ["action"; "pull_request"]
  else [].

Definition named (names : list string) (name : string) : bool :=
  existsb (String.eqb name) names.

(** The member with this key is stored in one of the fields [names]. *)
Definition targets (names : list string) (key : string) : bool :=
  match findField Payload_fields key with
  | Some f => named names (fst f)
  | None => false
  end.

(** Two payloads hold the same values in the fields [names]. *)
Definition agree_on (names : list string) (p q : Payload) : Prop :=
  (named names "action" = true -> Payload_Action p = Payload_Action q)
  /\ (named names "ref_type" = true -> Payload_RefType p = Payload_RefType q)
  /\ (named names "commits" = true -> Payload_Commits p = Payload_Commits q)
  /\ (named names "issue" = true -> Payload_Issue p = Payload_Issue q)
  /\ (named names "forkee" = true -> Payload_Forkee p = Payload_Forkee q)
  /\ (named names "pull_request" = true ->
      Payload_PullRequest p = Payload_PullRequest q).

(** The empty values of a field, by its JSON name: [null] for every
    field, the empty string for a string, the empty array for [commits],
    the empty object for a struct. *)
Definition empty_value (name : string) (v : json) : bool :=
  match v with
  | JNull => true
  | JString EmptyString => named ["action"; "ref_type"] name
  | JArray [] => named ["commits"] name
  | JObject [] => named ["issue"; "forkee"; "pull_request"] name
  | _ => false
  end.

(** [blanked names ms ms']: the members [ms'] are the members [ms] where
    some that are stored in no field of [names] were left out (the field
    is absent) or had their value replaced by an empty one (the field is
    empty). *)
Inductive blanked (names : list string)
  : list (string * json) -> list (string * json) -> Prop :=
| blanked_nil : blanked names [] []
| blanked_keep kv ms ms' :
    blanked names ms ms' -> blanked names (kv :: ms) (kv :: ms')
| blanked_absent k v ms ms' :
    targets names k = false ->
    blanked names ms ms' -> blanked names ((k, v) :: ms) ms'
| blanked_empty k v v' ms ms' :
    targets names k = false ->
    (forall f, findField Payload_fields k = Some f ->
               empty_value (fst f) v' = true) ->
    blanked names ms ms' -> blanked names ((k, v) :: ms) ((k, v') :: ms').

(** The event with the payload fields its category does not read set to
    their zero values. *)
Definition unread_zeroed (e : Event) : Event :=
  let names := reads (Event_Type e) in
  let p := Event_Payload e in
  {| Event_Type := Event_Type e;
     Event_Repo := Event_Repo e;
     Event_Payload :=
       {| Payload_Action :=
            if named names "action" then Payload_Action p else EmptyString;
          Payload_RefType :=
            if named names "ref_type" then Payload_RefType p else EmptyString;
          Payload_Commits :=
            if named names "commits" then Payload_Commits p else [];
          Payload_Issue :=
            if named names "issue" then Payload_Issue p else Issue_zero;
          Payload_Forkee :=
            if named names "forkee" then Payload_Forkee p else Forkee_zero;
          Payload_PullRequest :=
            if named names "pull_request" then Payload_PullRequest p
            else Issue_zero |} |}.

(** *** Bodies that [json.Unmarshal] rejects

    Text that is not JSON; a value that is neither [null] nor an array;
    an array with an element that is no event record. *)
Inductive rejected : json_text -> Prop :=
| rejected_syntax err : rejected (Malformed err)
| rejected_bool b : rejected (Document (JBool b))
| rejected_number f : rejected (Document (JNumber f))
| rejected_string s : rejected (Document (JString s))
| rejected_object ms : rejected (Document (JObject ms))
| rejected_element elems x :
    In x elems -> into_Event x Event_zero = None ->
    rejected (Document (JArray elems)).

(** *** Decoders

    Whether a value can be stored does not depend on what the target
    holds so far. *)
Definition state_blind {T : Type} (into : json -> T -> option T) : Prop :=
  forall v c c' r, into v c = Some r -> exists r', into v c' = Some r'.

(** *** Further vocabulary

    [strings.Title] on ASCII text, byte by byte: a letter is upper-cased
    when it starts the text or follows a byte that is no letter, digit or
    underscore. *)
Fixpoint title_bytes (after_separator : bool) (s : string) : string :=
  match s with
  | EmptyString => EmptyString
  | String c s' =>
    String (if after_separator then upper_byte c else c)
           (title_bytes (negb (word_byte c)) s')
  end.

(** A boolean or a number: a value no field of [Payload] can hold. *)
Definition scalar (v : json) : bool :=
  match v with
  | JBool _ | JNumber _ => true
  | _ => false
  end.

(** The JSON names of a struct's fields, case-folded. *)
Definition folded_names {T : Type} (fields : list (@field T)) : list string :=
  map (fun f => foldName (fst f)) fields.

(** A text that ends with a line feed. *)
Definition ends_with_LF (s : string) : Prop := exists t, s = t ++ LF.

Definition usage : string := "Usage: go run github_activity.go <username>" ++ LF.

(* ================================================================== *)
(** ** Sample inputs for the closed examples *)

(** Tables that know no letter, digit or space above [MaxASCII].  The
    examples run on ASCII text, for which no table is consulted. *)
Definition ascii_only : unicode.Tables :=
  {| unicode.IsLetter := fun _ => false;
     unicode.IsDigit := fun _ => false;
     unicode.IsSpace := fun _ => false;
     unicode.To_TitleCase := fun r => r |}.

(** A network on which the events of [octocat] are answered with the
    given status and body, and no other host is found. *)
Definition octocat_answers (status : Z) (body : json_text) (url : string)
    : get_result :=
  if String.eqb url "https://api.github.com/users/octocat/events"
  then Get_ok {| StatusCode := status; Body := Read_ok body |}
  else Get_err "dial tcp: lookup failed".

Definition type_error_text (_ : json) : string :=
  "json: cannot unmarshal value into Go value of type []main.Event".

(** An event object with the three members of the API, in its order. *)
Definition event_json (Type_ : string) (repo payload : json) : json :=
  JObject [("type", JString Type_); ("repo", repo); ("payload", payload)].

Definition repo_json (name : string) : json :=
  JObject [("name", JString name)].

Definition mkEvent (Type_ repo : string) (payload : Payload) : Event :=
  {| Event_Type := Type_; Event_Repo := {| Repo_Name := repo |};
     Event_Payload := payload |}.

(** A push of three commits to [x/y]. *)
Definition push_x_y : json :=
  event_json "PushEvent" (repo_json "x/y")
    (JObject [("commits", JArray [JObject []; JObject []; JObject []])]).

(** An event of a category the switch does not know, on [a/b]. *)
Definition gollum_a_b : json :=
  event_json "GollumEvent" (repo_json "a/b") (JObject [("pages", JArray [])]).

(** An issues event on [a/b]. *)
Definition issues_a_b (action title : string) : json :=
  event_json "IssuesEvent" (repo_json "a/b")
    (JObject [("action", JString action);
              ("issue", JObject [("number", JNumber true);
                                 ("title", JString title)])]).

(** A fork of [a/b] to [octocat/b]. *)
Definition fork_a_b : json :=
  event_json "ForkEvent" (repo_json "a/b")
    (JObject [("forkee", JObject [("id", JNumber true);
                                  ("full_name", JString "octocat/b")])]).

(** A network on which reading the body of the answer fails. *)
Definition body_breaks (err : string) (_ : string) : get_result :=
  Get_ok {| StatusCode := 200; Body := Read_err err |}.

(** A network that answers every request with status 404. *)
Definition always_404 (_ : string) : get_result :=
  Get_ok {| StatusCode := 404; Body := Read_ok (Document (JArray [])) |}.

(* ================================================================== *)
(** ** Proof tactics *)

(** Case analysis on every comparison of integers in sight. *)
Ltac split_comparisons :=
  repeat match goal with
         | H : context [?x <=? ?y] |- _ => destruct (Z.leb_spec x y); simpl in H
         | H : context [?x =? ?y] |- _ => destruct (Z.eqb_spec x y); simpl in H
         | |- context [?x <=? ?y] => destruct (Z.leb_spec x y); simpl
         | |- context [?x =? ?y] => destruct (Z.eqb_spec x y); simpl
         end.

(** The six cases of a field of [Payload]. *)
Ltac payload_field Hin :=
  simpl in Hin;
  destruct Hin as [<-|[<-|[<-|[<-|[<-|[<-|[]]]]]]]; cbn [fst snd] in *.

(** Goals on [agree_on]: by the projections of the updated payloads. *)
Ltac agree_auto :=
  unfold agree_on in *; cbn [Payload_Action Payload_RefType Payload_Commits
    Payload_Issue Payload_Forkee Payload_PullRequest set_Action set_RefType
    set_Commits set_Issue set_Forkee set_PullRequest] in *;
  intuition congruence.

(* ================================================================== *)
(** * Properties *)

(** ** Text *)

Lemma append_nil_r (s : string) : s ++ EmptyString = s.
Proof. induction s as [|c s IH]; simpl; [reflexivity | now rewrite IH]. Qed.

Lemma append_assoc (s t u : string) : (s ++ t) ++ u = s ++ (t ++ u).
Proof. induction s as [|c s IH]; simpl; [reflexivity | now rewrite IH]. Qed.

Lemma flat_app (l1 l2 : list string) :
  flat (l1 ++ l2)%list = flat l1 ++ flat l2.
Proof.
  induction l1 as [|x l1 IH]; simpl; [reflexivity|].
  now rewrite IH, append_assoc.
Qed.

(** The decimal text of an integer reads back as that integer. *)
Lemma atoi_itoa (x : Z) : atoi (itoa x) = Some x.
Proof.
  unfold atoi, itoa. rewrite NilEmpty.isi. simpl. now rewrite DecimalZ.of_to.
Qed.

Lemma error_is_no_header (username msg : string) :
  ~ starts_with (header username) ("Error: " ++ msg).
Proof. intros [rest H]. discriminate H. Qed.

Lemma header_is_no_error (username rest : string) :
  ~ starts_with "Error" (header username ++ rest).
Proof. intros [r H]. discriminate H. Qed.

(* ================================================================== *)
(** ** The status of the response *)

Section Status.
Variable U : unicode.Tables.
Variable http_Get : string -> get_result.
Variable type_error : json -> string.
Variable username : string.

Let out := getGithubActivity U http_Get type_error username.
Let url := "https://api.github.com/users/" ++ username ++ "/events".

Lemma run_404 resp :
  http_Get url = Get_ok resp ->
  StatusCode resp = 404 ->
  out = "Error: Could not find GitHub user '" ++ username ++ "'." ++ LF.
Proof.
  intros Hget Hst. unfold out, getGithubActivity, url in *. cbv zeta.
  now rewrite Hget, Hst.
Qed.

Lemma run_other_status resp :
  http_Get url = Get_ok resp ->
  StatusCode resp <> 404 -> StatusCode resp <> 200 ->
  out = "Error: Received status code " ++ itoa (StatusCode resp)
          ++ " from GitHub API." ++ LF.
Proof.
  intros Hget H404 H200. unfold out, getGithubActivity, url in *. cbv zeta.
  rewrite Hget.
  destruct (Z.eqb_spec (StatusCode resp) 404) as [E|_]; [contradiction|].
  destruct (Z.eqb_spec (StatusCode resp) 200) as [E|_]; [contradiction|].
  reflexivity.
Qed.

Lemma run_200 body :
  ok_response http_Get username body ->
  out =
    match json_Unmarshal type_error body with
    | inr err =>
      "Error: Failed to parse the response from the GitHub API. Reason: "
        ++ err ++ LF
    | inl events =>
      if Nat.eqb (List.length events) 0
      then header username ++ "No recent public activity found." ++ LF
      else renderEvents U events (header username)
    end.
Proof.
  intros (resp & Hget & Hst & Hbody). unfold out, getGithubActivity.
  cbv zeta. rewrite Hget, Hst, Hbody. reflexivity.
Qed.

(** C4. On a 404 response the whole output is one error message, which
    names the requested user; it does not start with the header (and so
    holds no event line after one). *)
Theorem C4_user_not_found resp :
  http_Get url = Get_ok resp ->
  StatusCode resp = 404 ->
  out = "Error: Could not find GitHub user '" ++ username ++ "'." ++ LF
  /\ ~ starts_with (header username) out.
Proof.
  intros Hget Hst. pose proof (run_404 resp Hget Hst) as E.
  split; [exact E|]. rewrite E. apply error_is_no_header.
Qed.

(** C5. On a response whose status is neither 200 nor 404 the whole
    output is one error message that holds the status code in decimal,
    from which the code reads back; the header is not printed. *)
Theorem C5_other_status resp :
  http_Get url = Get_ok resp ->
  StatusCode resp <> 200 -> StatusCode resp <> 404 ->
  out = "Error: Received status code " ++ itoa (StatusCode resp)
          ++ " from GitHub API." ++ LF
  /\ atoi (itoa (StatusCode resp)) = Some (StatusCode resp)
  /\ ~ starts_with (header username) out.
Proof.
  intros Hget H200 H404.
  pose proof (run_other_status resp Hget H404 H200) as E.
  split; [exact E|]. split; [apply atoi_itoa|].
  rewrite E. apply error_is_no_header.
Qed.

(** C6. On a 200 response whose body is the empty array, decoding
    succeeds with no event, and the output is the header followed by the
    message that no activity was found: no event line, and no error. *)
Theorem C6_empty_array :
  ok_response http_Get username (Document (JArray [])) ->
  json_Unmarshal type_error (Document (JArray [])) = inl []
  /\ out = header username ++ "No recent public activity found." ++ LF
  /\ ~ starts_with "Error" out.
Proof.
  intros Hok. pose proof (run_200 _ Hok) as E. simpl in E.
  split; [reflexivity|]. split; [exact E|].
  rewrite E. apply header_is_no_error.
Qed.

End Status.

(** A closed instance of C4. *)
Lemma C4_witness :
  getGithubActivity ascii_only (octocat_answers 404 (Document (JArray [])))
    type_error_text "octocat"
  = "Error: Could not find GitHub user 'octocat'." ++ LF
  /\ ~ starts_with (header "octocat")
       (getGithubActivity ascii_only (octocat_answers 404 (Document (JArray [])))
          type_error_text "octocat").
Proof.
  exact (C4_user_not_found ascii_only
           (octocat_answers 404 (Document (JArray []))) type_error_text "octocat"
           {| StatusCode := 404; Body := Read_ok (Document (JArray [])) |}
           eq_refl eq_refl).
Defined.

(** A closed instance of C5: status 500. *)
Lemma C5_witness :
  getGithubActivity ascii_only (octocat_answers 500 (Malformed "unexpected end"))
    type_error_text "octocat"
  = "Error: Received status code 500 from GitHub API." ++ LF
  /\ atoi "500" = Some 500
  /\ ~ starts_with (header "octocat")
       (getGithubActivity ascii_only
          (octocat_answers 500 (Malformed "unexpected end"))
          type_error_text "octocat").
Proof.
  refine (C5_other_status ascii_only
            (octocat_answers 500 (Malformed "unexpected end"))
            type_error_text "octocat"
            {| StatusCode := 500; Body := Read_ok (Malformed "unexpected end") |}
            eq_refl _ _); simpl; lia.
Defined.

(** A closed instance of C6. *)
Lemma C6_witness :
  json_Unmarshal type_error_text (Document (JArray [])) = inl []
  /\ getGithubActivity ascii_only (octocat_answers 200 (Document (JArray [])))
       type_error_text "octocat"
     = "Recent Activity for octocat:" ++ LF ++ LF
         ++ "No recent public activity found." ++ LF
  /\ ~ starts_with "Error"
       (getGithubActivity ascii_only (octocat_answers 200 (Document (JArray [])))
          type_error_text "octocat").
Proof.
  refine (C6_empty_array ascii_only
            (octocat_answers 200 (Document (JArray []))) type_error_text "octocat" _).
  exists {| StatusCode := 200; Body := Read_ok (Document (JArray [])) |}.
  repeat split; reflexivity.
Defined.

(* ================================================================== *)
(** ** Bodies that are rejected *)

Lemma array_elems_None {T : Type} (into : json -> T -> option T) (zero : T)
    (elems : list json) :
  array_elems into zero elems = None <->
  exists x, In x elems /\ into x zero = None.
Proof.
  induction elems as [|v rest IH]; simpl.
  - split; [discriminate | intros (x & [] & _)].
  - destruct (into v zero) as [y|] eqn:Ev.
    + destruct (array_elems into zero rest) as [ys|].
      * split; [discriminate|].
        intros (x & [<-|Hin] & Hx); [congruence|].
        destruct IH as [_ IH]. discriminate IH. now exists x.
      * split; [|reflexivity]. intros _.
        destruct IH as [IH _]. destruct (IH eq_refl) as (x & Hin & Hx).
        exists x. auto.
    + split; [|reflexivity]. intros _. exists v. auto.
Qed.

(** [json.Unmarshal] returns an error on the rejected bodies, and on no
    other. *)
Lemma Unmarshal_error_iff (type_error : json -> string) (body : json_text) :
  (exists err, json_Unmarshal type_error body = inr err) <-> rejected body.
Proof.
  unfold json_Unmarshal, into_events, into_slice. split.
  - intros [err H]. destruct body as [e|v]; [constructor|].
    destruct v; try constructor; try discriminate H.
    destruct (array_elems into_Event Event_zero elems) eqn:E; [discriminate|].
    apply array_elems_None in E. destruct E as (x & Hin & Hx).
    now apply rejected_element with x.
  - intros H. destruct H; try (eexists; reflexivity).
    assert (E : array_elems into_Event Event_zero elems = None)
      by (apply array_elems_None; eauto).
    rewrite E. eexists; reflexivity.
Qed.

Section Rejected.
Variable U : unicode.Tables.
Variable http_Get : string -> get_result.
Variable type_error : json -> string.
Variable username : string.

Let out := getGithubActivity U http_Get type_error username.

(** C3, amended.  On a 200 response whose body [json.Unmarshal] rejects
    (text that is not JSON, a JSON value that is neither [null] nor an
    array, or an array with an element that is no event record) the whole
    output is one parse-error message: neither the header nor an event
    line is printed. *)
Theorem C3_rejected_body body :
  ok_response http_Get username body ->
  rejected body ->
  exists err,
    json_Unmarshal type_error body = inr err
    /\ out = "Error: Failed to parse the response from the GitHub API. Reason: "
               ++ err ++ LF
    /\ ~ starts_with (header username) out.
Proof.
  intros Hok Hrej.
  destruct (proj2 (Unmarshal_error_iff type_error body) Hrej) as [err Herr].
  exists err. split; [exact Herr|].
  pose proof (run_200 U http_Get type_error username body Hok) as E.
  rewrite Herr in E. split; [exact E|].
  unfold out. rewrite E. apply error_is_no_header.
Qed.

End Rejected.

(** A closed instance of C3: the body is an object, as the API sends with
    its own error messages. *)
Lemma C3_witness :
  exists err,
    json_Unmarshal type_error_text
      (Document (JObject [("message", JString "API rate limit exceeded")]))
    = inr err
    /\ getGithubActivity ascii_only
         (octocat_answers 200
            (Document (JObject [("message", JString "API rate limit exceeded")])))
         type_error_text "octocat"
       = "Error: Failed to parse the response from the GitHub API. Reason: "
           ++ err ++ LF
    /\ ~ starts_with (header "octocat")
         (getGithubActivity ascii_only
            (octocat_answers 200
               (Document (JObject [("message", JString "API rate limit exceeded")])))
            type_error_text "octocat").
Proof.
  refine (C3_rejected_body ascii_only
            (octocat_answers 200
               (Document (JObject [("message", JString "API rate limit exceeded")])))
            type_error_text "octocat" _ _ _).
  - exists {| StatusCode := 200;
              Body := Read_ok (Document
                (JObject [("message", JString "API rate limit exceeded")])) |}.
    repeat split; reflexivity.
  - constructor.
Defined.

(** C3 as stated fails on the body [null]: it is no JSON array, yet no
    parse error is reported; the run prints the header and the message
    that no activity was found. *)
Lemma C3_counterexample :
  (forall elems, Document JNull <> Document (JArray elems))
  /\ json_Unmarshal type_error_text (Document JNull) = inl []
  /\ getGithubActivity ascii_only (octocat_answers 200 (Document JNull))
       type_error_text "octocat"
     = "Recent Activity for octocat:" ++ LF ++ LF
         ++ "No recent public activity found." ++ LF.
Proof.
  split; [discriminate|]. split; reflexivity.
Qed.

(* ================================================================== *)
(** ** [strings.Title] on a single word *)

Lemma byte_val_range (c : ascii) : 0 <= byte_val c < 256.
Proof.
  unfold byte_val. pose proof (N_ascii_bounded c). lia.
Qed.

Lemma to_byte_val (c : ascii) : to_byte (byte_val c) = c.
Proof.
  unfold to_byte. pose proof (byte_val_range c) as H.
  rewrite Z.mod_small by lia. unfold byte_val.
  rewrite N2Z.id. apply ascii_N_embedding.
Qed.

Lemma Decode_ascii (c : ascii) (s : string) :
  byte_val c < 128 ->
  utf8.DecodeRuneInString (String c s) = (byte_val c, 1%nat).
Proof.
  intros H. unfold utf8.DecodeRuneInString, utf8.first.
  destruct (Z.ltb_spec (byte_val c) 128) as [_|]; [reflexivity | lia].
Qed.

Lemma range_fuel_ascii (s : string) :
  all_ascii s = true ->
  forall n, (String.length s <= n)%nat -> utf8.range_fuel n s = byte_chunks s.
Proof.
  induction s as [|c s IH]; intros Hs n Hn.
  - destruct n; reflexivity.
  - simpl in Hs. apply andb_prop in Hs. destruct Hs as [Hc Hs].
    apply Z.ltb_lt in Hc.
    destruct n as [|n]; [simpl in Hn; lia|].
    cbn [utf8.range_fuel]. rewrite (Decode_ascii c s Hc).
    cbn [byte_chunks]. f_equal.
    + unfold take. simpl. now destruct s.
    + apply IH; [exact Hs | simpl in Hn; lia].
Qed.

Lemma range_ascii (s : string) :
  all_ascii s = true -> utf8.range s = byte_chunks s.
Proof. intros H. apply range_fuel_ascii; [exact H | lia]. Qed.

Lemma word_byte_ascii (c : ascii) : word_byte c = true -> byte_val c < 128.
Proof.
  unfold word_byte. pose proof (byte_val_range c) as R.
  set (b := byte_val c) in *. intros H.
  split_comparisons; try discriminate H; lia.
Qed.

Lemma word_byte_no_separator (U : unicode.Tables) (c : ascii) :
  word_byte c = true -> strings.isSeparator U (byte_val c) = false.
Proof.
  unfold word_byte, strings.isSeparator.
  change (unicode.ch "0") with 48. change (unicode.ch "9") with 57.
  change (unicode.ch "a") with 97. change (unicode.ch "z") with 122.
  change (unicode.ch "A") with 65. change (unicode.ch "Z") with 90.
  change (unicode.ch "_") with 95. change 0x7F with 127.
  pose proof (byte_val_range c) as R. set (b := byte_val c) in *.
  intros H.
  split_comparisons; try discriminate H; try reflexivity; lia.
Qed.

Lemma single_word_ascii (s : string) :
  single_word s = true -> all_ascii s = true.
Proof.
  induction s as [|c s IH]; simpl; [reflexivity|].
  intros H. apply andb_prop in H. destruct H as [Hc Hs].
  apply word_byte_ascii in Hc. apply Z.ltb_lt in Hc.
  now rewrite Hc, IH.
Qed.

Lemma WriteRune_ascii (c : ascii) :
  byte_val c < 128 ->
  strings.WriteRune (byte_val c) = String c EmptyString.
Proof.
  intros H. pose proof (byte_val_range c) as R.
  unfold strings.WriteRune, utf8.EncodeRune, utf8.rune1Max.
  destruct (Z.geb_spec (byte_val c) 0) as [_|]; [|lia].
  rewrite Z.mod_small by lia.
  destruct (Z.leb_spec (byte_val c) 127) as [_|]; [|lia].
  now rewrite to_byte_val.
Qed.

Section TitleWord.
Variable U : unicode.Tables.

(** Past the first byte of a word [prev] is no separator: the mapping of
    [Title] returns every rune as it is, in either loop of [Map]. *)
Lemma Map_write_word (s : string) :
  single_word s = true ->
  forall prev, strings.isSeparator U prev = false ->
  strings.Map_write (strings.Title_mapping U) prev (byte_chunks s) = s.
Proof.
  induction s as [|c s IH]; intros Hs prev Hprev; [reflexivity|].
  simpl in Hs. apply andb_prop in Hs. destruct Hs as [Hc Hs].
  cbn [byte_chunks strings.Map_write]. unfold strings.Title_mapping at 1.
  rewrite Hprev, (WriteRune_ascii c (word_byte_ascii c Hc)).
  simpl. f_equal. apply IH; [exact Hs | now apply word_byte_no_separator].
Qed.

Lemma Map_scan_word (s : string) :
  single_word s = true ->
  forall prev, strings.isSeparator U prev = false ->
  strings.Map_scan (strings.Title_mapping U) prev (byte_chunks s) = s.
Proof.
  induction s as [|c s IH]; intros Hs prev Hprev; [reflexivity|].
  simpl in Hs. apply andb_prop in Hs. destruct Hs as [Hc Hs].
  cbn [byte_chunks strings.Map_scan]. unfold strings.Title_mapping at 1.
  rewrite Hprev, Z.eqb_refl.
  pose proof (word_byte_ascii c Hc) as Hlt.
  destruct (Z.eqb_spec (byte_val c) utf8.RuneError) as [E|_].
  - unfold utf8.RuneError in E. lia.
  - simpl. f_equal. apply IH; [exact Hs | now apply word_byte_no_separator].
Qed.

(** On a single word [Title] upper-cases the first letter and leaves the
    rest as it is. *)
Lemma Title_single_word (s : string) :
  single_word s = true -> strings.Title U s = capitalize_first s.
Proof.
  intros Hs. unfold strings.Title, strings.Map.
  rewrite (range_ascii s (single_word_ascii s Hs)).
  destruct s as [|c s]; [reflexivity|].
  simpl in Hs. apply andb_prop in Hs. destruct Hs as [Hc Hs].
  pose proof (word_byte_ascii c Hc) as Hlt.
  pose proof (word_byte_no_separator U c Hc) as Hsep.
  pose proof (byte_val_range c) as R.
  cbn [byte_chunks strings.Map_scan capitalize_first].
  unfold strings.Title_mapping at 1.
  change (strings.isSeparator U (unicode.ch " ")) with true. cbv iota.
  unfold unicode.ToTitle, upper_byte, unicode.MaxASCII.
  change (unicode.ch "a") with 97. change (unicode.ch "z") with 122.
  change (unicode.ch "A") with 65. change 0x7F with 127.
  destruct (Z.leb_spec (byte_val c) 127) as [_|]; [|lia].
  destruct ((97 <=? byte_val c) && (byte_val c <=? 122)) eqn:Elow.
  - apply andb_prop in Elow. destruct Elow as [E1 E2].
    apply Z.leb_le in E1, E2.
    destruct (Z.eqb_spec (byte_val c - (97 - 65)) (byte_val c)) as [E|_]; [lia|].
    cbn [andb].
    destruct (Z.eqb_spec (byte_val c) utf8.RuneError) as [E|_];
      [unfold utf8.RuneError in E; lia|].
    cbn [andb].
    rewrite (Map_write_word s Hs _ Hsep).
    unfold strings.WriteRune, utf8.EncodeRune, utf8.rune1Max.
    destruct (Z.geb_spec (byte_val c - (97 - 65)) 0) as [_|]; [|lia].
    rewrite Z.mod_small by lia.
    destruct (Z.leb_spec (byte_val c - (97 - 65)) 127) as [_|]; [|lia].
    reflexivity.
  - rewrite Z.eqb_refl.
    destruct (Z.eqb_spec (byte_val c) utf8.RuneError) as [E|_];
      [unfold utf8.RuneError in E; lia|].
    cbn [andb negb]. rewrite (Map_scan_word s Hs _ Hsep). reflexivity.
Qed.

End TitleWord.

(* ================================================================== *)
(** ** The loop over the events *)

Lemma renderEvents_flat (U : unicode.Tables) (events : list Event) :
  forall stdout,
    renderEvents U events stdout = stdout ++ flat (map (renderEvent U) events).
Proof.
  unfold renderEvents.
  induction events as [|e events IH]; intros stdout; simpl.
  - now rewrite append_nil_r.
  - now rewrite IH, append_assoc.
Qed.

(** What each case of the switch prints. *)
Section Cases.
Variable U : unicode.Tables.
Variable event : Event.

Let Type_ := Event_Type event.
Let repo := Repo_Name (Event_Repo event).
Let payload := Event_Payload event.

Lemma render_PushEvent :
  Type_ = "PushEvent" ->
  renderEvent U event =
    "- Pushed " ++ itoa (Z.of_nat (List.length (Payload_Commits payload)))
      ++ " commit(s) to " ++ repo ++ LF.
Proof. unfold Type_, renderEvent. now intros ->. Qed.

Lemma render_IssuesEvent :
  Type_ = "IssuesEvent" ->
  renderEvent U event =
    "- " ++ strings.Title U (Payload_Action payload) ++ " an issue in " ++ repo
      ++ ": " ++ quote ++ Issue_Title (Payload_Issue payload) ++ quote ++ LF.
Proof. unfold Type_, renderEvent. now intros ->. Qed.

Lemma render_WatchEvent :
  Type_ = "WatchEvent" ->
  renderEvent U event =
    "- " ++ strings.Title U (Payload_Action payload) ++ " watching " ++ repo ++ LF.
Proof. unfold Type_, renderEvent. now intros ->. Qed.

Lemma render_PullRequestEvent :
  Type_ = "PullRequestEvent" ->
  renderEvent U event =
    "- " ++ strings.Title U (Payload_Action payload) ++ " a pull request in "
      ++ repo ++ ": " ++ quote ++ Issue_Title (Payload_PullRequest payload)
      ++ quote ++ LF.
Proof. unfold Type_, renderEvent. now intros ->. Qed.

Lemma render_default :
  Type_ <> "PushEvent" -> Type_ <> "CreateEvent" -> Type_ <> "IssuesEvent" ->
  Type_ <> "IssueCommentEvent" -> Type_ <> "WatchEvent" ->
  Type_ <> "ForkEvent" -> Type_ <> "PullRequestEvent" ->
  Type_ <> "PublicEvent" ->
  renderEvent U event = "- Performed a " ++ Type_ ++ " on " ++ repo ++ LF.
Proof.
  unfold Type_, renderEvent. intros.
  repeat match goal with
         | H : ?x <> ?y |- context [String.eqb ?x ?y] =>
           rewrite (proj2 (String.eqb_neq x y) H)
         end.
  reflexivity.
Qed.

End Cases.

Section Rendering.
Variable U : unicode.Tables.
Variable http_Get : string -> get_result.
Variable type_error : json -> string.
Variable username : string.
Variable body : json_text.
Hypothesis response : ok_response http_Get username body.

Let out := getGithubActivity U http_Get type_error username.

Lemma run_events (events : list Event) :
  json_Unmarshal type_error body = inl events ->
  events <> [] ->
  out = header username ++ flat (map (renderEvent U) events).
Proof.
  intros Hdec Hne. unfold out.
  rewrite (run_200 U http_Get type_error username body response), Hdec.
  destruct events as [|e events]; [contradiction|].
  cbn [List.length Nat.eqb]. apply renderEvents_flat.
Qed.

(** The events decoded from the body, with one of them, [event], singled
    out between those before and those after it. *)
Variables before after : list Event.
Variable event : Event.
Hypothesis decoded :
  json_Unmarshal type_error body = inl (before ++ event :: after)%list.

(** [line] is printed for [event]: after the header and the lines of the
    events before, and before the lines of the events after. *)
Let printed (line : string) : Prop :=
  out = header username ++ flat (map (renderEvent U) before)
          ++ line ++ flat (map (renderEvent U) after).

Lemma printed_renderEvent : printed (renderEvent U event).
Proof.
  unfold printed. rewrite (run_events _ decoded) by (now destruct before).
  rewrite map_app, flat_app. reflexivity.
Qed.

(** C2. For a push event of a decoded 200 response the line printed is
    "- Pushed {count} commit(s) to {repo}", with the length of the
    event's commits for count and the name of its repository for repo. *)
Theorem C2_push_line :
  Event_Type event = "PushEvent" ->
  printed ("- Pushed "
             ++ itoa (Z.of_nat (List.length (Payload_Commits (Event_Payload event))))
             ++ " commit(s) to " ++ Repo_Name (Event_Repo event) ++ LF).
Proof.
  intros Hty. rewrite <- (render_PushEvent U event Hty).
  apply printed_renderEvent.
Qed.

(** C7. For an event whose type is none of the eight of the switch the
    line printed is "- Performed a {category} on {repo}", with the type
    and the repository name as they were decoded. *)
Theorem C7_other_category_line :
  Event_Type event <> "PushEvent" -> Event_Type event <> "CreateEvent" ->
  Event_Type event <> "IssuesEvent" -> Event_Type event <> "IssueCommentEvent" ->
  Event_Type event <> "WatchEvent" -> Event_Type event <> "ForkEvent" ->
  Event_Type event <> "PullRequestEvent" -> Event_Type event <> "PublicEvent" ->
  printed ("- Performed a " ++ Event_Type event ++ " on "
             ++ Repo_Name (Event_Repo event) ++ LF).
Proof.
  intros H1 H2 H3 H4 H5 H6 H7 H8.
  rewrite <- (render_default U event H1 H2 H3 H4 H5 H6 H7 H8).
  apply printed_renderEvent.
Qed.

(** C1, amended.  For an issues, watch or pull_request event whose action
    is a single word (ASCII letters, digits and underscores) the line
    printed holds the action with its first letter upper-cased and the
    rest unchanged. *)
Theorem C1_single_word_action :
  single_word (Payload_Action (Event_Payload event)) = true ->
  (Event_Type event = "IssuesEvent" ->
   printed ("- " ++ capitalize_first (Payload_Action (Event_Payload event))
              ++ " an issue in " ++ Repo_Name (Event_Repo event) ++ ": "
              ++ quote ++ Issue_Title (Payload_Issue (Event_Payload event))
              ++ quote ++ LF))
  /\ (Event_Type event = "WatchEvent" ->
      printed ("- " ++ capitalize_first (Payload_Action (Event_Payload event))
                 ++ " watching " ++ Repo_Name (Event_Repo event) ++ LF))
  /\ (Event_Type event = "PullRequestEvent" ->
      printed ("- " ++ capitalize_first (Payload_Action (Event_Payload event))
                 ++ " a pull request in " ++ Repo_Name (Event_Repo event) ++ ": "
                 ++ quote
                 ++ Issue_Title (Payload_PullRequest (Event_Payload event))
                 ++ quote ++ LF)).
Proof.
  intros Hword.
  pose proof (Title_single_word U _ Hword) as Ht.
  repeat split; intros Hty; rewrite <- Ht.
  - rewrite <- (render_IssuesEvent U event Hty). apply printed_renderEvent.
  - rewrite <- (render_WatchEvent U event Hty). apply printed_renderEvent.
  - rewrite <- (render_PullRequestEvent U event Hty). apply printed_renderEvent.
Qed.

End Rendering.

(** A closed instance of C2: three commits on [x/y]. *)
Lemma C2_witness :
  getGithubActivity ascii_only
    (octocat_answers 200 (Document (JArray [push_x_y]))) type_error_text "octocat"
  = "Recent Activity for octocat:" ++ LF ++ LF
      ++ "- Pushed 3 commit(s) to x/y" ++ LF.
Proof.
  refine (C2_push_line ascii_only
            (octocat_answers 200 (Document (JArray [push_x_y])))
            type_error_text "octocat" (Document (JArray [push_x_y])) _
            [] []
            (mkEvent "PushEvent" "x/y"
               (set_Commits Payload_zero [JObject []; JObject []; JObject []]))
            eq_refl eq_refl).
  exists {| StatusCode := 200; Body := Read_ok (Document (JArray [push_x_y])) |}.
  repeat split; reflexivity.
Defined.

(** A closed instance of C7: a [GollumEvent] on [a/b], after a push. *)
Lemma C7_witness :
  getGithubActivity ascii_only
    (octocat_answers 200 (Document (JArray [push_x_y; gollum_a_b])))
    type_error_text "octocat"
  = "Recent Activity for octocat:" ++ LF ++ LF
      ++ "- Pushed 3 commit(s) to x/y" ++ LF
      ++ "- Performed a GollumEvent on a/b" ++ LF.
Proof.
  refine (C7_other_category_line ascii_only
            (octocat_answers 200 (Document (JArray [push_x_y; gollum_a_b])))
            type_error_text "octocat"
            (Document (JArray [push_x_y; gollum_a_b])) _
            [mkEvent "PushEvent" "x/y"
               (set_Commits Payload_zero [JObject []; JObject []; JObject []])]
            []
            (mkEvent "GollumEvent" "a/b" Payload_zero)
            eq_refl _ _ _ _ _ _ _ _); try discriminate.
  exists {| StatusCode := 200;
            Body := Read_ok (Document (JArray [push_x_y; gollum_a_b])) |}.
  repeat split; reflexivity.
Defined.

(** A closed instance of C1: the action "opened" of an issue titled
    "Bug". *)
Lemma C1_witness :
  getGithubActivity ascii_only
    (octocat_answers 200 (Document (JArray [issues_a_b "opened" "Bug"])))
    type_error_text "octocat"
  = "Recent Activity for octocat:" ++ LF ++ LF
      ++ "- Opened an issue in a/b: " ++ quote ++ "Bug" ++ quote ++ LF.
Proof.
  refine (proj1 (C1_single_word_action ascii_only
            (octocat_answers 200 (Document (JArray [issues_a_b "opened" "Bug"])))
            type_error_text "octocat"
            (Document (JArray [issues_a_b "opened" "Bug"])) _
            [] []
            (mkEvent "IssuesEvent" "a/b"
               (set_Issue (set_Action Payload_zero "opened")
                          {| Issue_Title := "Bug" |}))
            eq_refl eq_refl) eq_refl).
  exists {| StatusCode := 200;
            Body := Read_ok (Document (JArray [issues_a_b "opened" "Bug"])) |}.
  repeat split; reflexivity.
Defined.

(** C1 as stated fails on an action of two words: [strings.Title]
    upper-cases the first letter of each word, so "re-opened" is printed
    as "Re-Opened", whatever the tables of [unicode], and not as the
    action with its first letter alone upper-cased, "Re-opened". *)
Lemma C1_counterexample :
  (forall U : unicode.Tables,
     getGithubActivity U
       (octocat_answers 200 (Document (JArray [issues_a_b "re-opened" "Bug"])))
       type_error_text "octocat"
     = "Recent Activity for octocat:" ++ LF ++ LF
         ++ "- Re-Opened an issue in a/b: " ++ quote ++ "Bug" ++ quote ++ LF)
  /\ capitalize_first "re-opened" = "Re-opened"
  /\ "- Re-Opened an issue in a/b: " ++ quote ++ "Bug" ++ quote ++ LF
     <> "- " ++ capitalize_first "re-opened" ++ " an issue in a/b: "
          ++ quote ++ "Bug" ++ quote ++ LF.
Proof.
  split; [intros U; reflexivity|]. split; [reflexivity | discriminate].
Qed.

(* ================================================================== *)
(** ** Lines *)

Lemma no_LF_app (s t : string) : no_LF (s ++ t) = no_LF s && no_LF t.
Proof.
  induction s as [|c s IH]; simpl; [reflexivity|].
  now rewrite IH, andb_assoc.
Qed.

Lemma no_LF_uint (d : Decimal.uint) : no_LF (NilEmpty.string_of_uint d) = true.
Proof. induction d; simpl; auto. Qed.

Lemma no_LF_itoa (x : Z) : no_LF (itoa x) = true.
Proof.
  unfold itoa. destruct (Z.to_int x); simpl; apply no_LF_uint.
Qed.

Lemma one_line_LF : one_line LF.
Proof. exists EmptyString. split; reflexivity. Qed.

Lemma one_line_cons (a s : string) :
  no_LF a = true -> one_line s -> one_line (a ++ s).
Proof.
  intros Ha (t & -> & Ht). exists (a ++ t). split.
  - now rewrite append_assoc.
  - now rewrite no_LF_app, Ha, Ht.
Qed.

(** The line of an event is one line when the texts substituted in it
    hold no line feed. *)
Lemma renderEvent_one_line (U : unicode.Tables) (e : Event) :
  plain_line U e = true -> one_line (renderEvent U e).
Proof.
  unfold plain_line, line_texts, renderEvent.
  repeat match goal with
         | |- context [String.eqb ?x ?y] => destruct (String.eqb x y)
         end;
  cbn [forallb]; intros H;
  repeat (apply andb_prop in H; let H' := fresh "H" in destruct H as [H' H]);
  repeat first [ apply one_line_LF
               | apply one_line_cons;
                 [first [assumption | apply no_LF_itoa | reflexivity]|] ].
Qed.

Lemma lines_from_line (t rest : string) :
  no_LF t = true ->
  forall cur,
    lines_from cur (t ++ LF ++ rest) = (cur ++ t ++ LF) :: lines_from EmptyString rest.
Proof.
  induction t as [|c t IH]; intros Ht cur.
  - reflexivity.
  - simpl in Ht. apply andb_prop in Ht. destruct Ht as [Hc Ht].
    apply negb_true_iff in Hc. cbn [append lines_from]. rewrite Hc.
    rewrite (IH Ht), append_assoc. reflexivity.
Qed.

Lemma text_lines_cons (s rest : string) :
  one_line s -> text_lines (s ++ rest) = s :: text_lines rest.
Proof.
  intros (t & -> & Ht). unfold text_lines.
  rewrite append_assoc. now rewrite (lines_from_line t rest Ht).
Qed.

Lemma text_lines_flat (lines : list string) :
  Forall one_line lines -> text_lines (flat lines) = lines.
Proof.
  induction 1 as [|s lines Hs _ IH]; [reflexivity|].
  cbn [flat fold_right]. fold (flat lines).
  now rewrite (text_lines_cons s (flat lines) Hs), IH.
Qed.

(* ================================================================== *)
(** ** Decoding objects *)

Lemma findField_In {T : Type} (fields : list (@field T)) (key : string) f :
  findField fields key = Some f -> In f fields.
Proof.
  unfold findField.
  destruct (byExactName fields key) as [g|] eqn:E.
  - intros [= <-]. unfold byExactName in E. now apply find_some in E.
  - intros H. unfold byFoldedName in H. now apply find_some in H.
Qed.

Lemma object_members_blind {T : Type} (fields : list (@field T)) :
  (forall f, In f fields -> state_blind (snd f)) ->
  forall ms c c' r,
    object_members fields ms c = Some r ->
    exists r', object_members fields ms c' = Some r'.
Proof.
  intros Hf. induction ms as [|[k v] ms IH]; intros c c' r H; simpl in *.
  - eauto.
  - destruct (findField fields k) as [f|] eqn:Ef; [|eauto].
    destruct (snd f v c) as [c1|] eqn:E1; [|discriminate].
    destruct (Hf f (findField_In _ _ _ Ef) v c c' c1 E1) as [c1' E1'].
    rewrite E1'. eauto.
Qed.

Lemma into_struct_blind {T : Type} (fields : list (@field T)) :
  (forall f, In f fields -> state_blind (snd f)) ->
  state_blind (into_struct fields).
Proof.
  intros Hf v c c' r H. destruct v; simpl in *; try discriminate; eauto.
  eapply object_members_blind; eauto.
Qed.

Lemma into_string_blind : state_blind into_string.
Proof. intros v c c' r H. destruct v; simpl in *; try discriminate; eauto. Qed.

Lemma option_map_blind {A T : Type} (into : json -> A -> option A)
    (get : T -> A) (set : T -> A -> T) :
  state_blind into ->
  state_blind (fun v c => option_map (set c) (into v (get c))).
Proof.
  intros Hb v c c' r H.
  destruct (into v (get c)) as [a|] eqn:E; [|discriminate].
  destruct (Hb v (get c) (get c') a E) as [a' E']. rewrite E'. simpl. eauto.
Qed.

Lemma Issue_fields_blind f : In f Issue_fields -> state_blind (snd f).
Proof.
  intros [<-|[]]. intros v c c' r H. simpl in *.
  destruct v; simpl in *; try discriminate; eauto.
Qed.

Lemma Forkee_fields_blind f : In f Forkee_fields -> state_blind (snd f).
Proof.
  intros [<-|[]]. intros v c c' r H. simpl in *.
  destruct v; simpl in *; try discriminate; eauto.
Qed.

Lemma Payload_fields_blind f : In f Payload_fields -> state_blind (snd f).
Proof.
  intros Hin. simpl in Hin.
  destruct Hin as [<-|[<-|[<-|[<-|[<-|[<-|[]]]]]]]; cbn [snd].
  - apply (option_map_blind into_string Payload_Action set_Action into_string_blind).
  - apply (option_map_blind into_string Payload_RefType set_RefType into_string_blind).
  - intros v c c' r H. destruct v; simpl in *; try discriminate; eauto.
    destruct (forallb any_ok elems); simpl in *; try discriminate; eauto.
  - apply (option_map_blind (into_struct Issue_fields) Payload_Issue set_Issue).
    apply into_struct_blind, Issue_fields_blind.
  - apply (option_map_blind (into_struct Forkee_fields) Payload_Forkee set_Forkee).
    apply into_struct_blind, Forkee_fields_blind.
  - apply (option_map_blind (into_struct Issue_fields) Payload_PullRequest
             set_PullRequest).
    apply into_struct_blind, Issue_fields_blind.
Qed.

(** *** Storing one member of a payload *)

Lemma struct_step {A : Type} (fields : list (@field A)) (names : list string)
    (name : string) (v : json) (a b a' : A) :
  (forall f, In f fields -> state_blind (snd f)) ->
  (named names name = true -> a = b) ->
  into_struct fields v a = Some a' ->
  exists b', into_struct fields v b = Some b'
             /\ (named names name = true -> a' = b').
Proof.
  intros Hb Hab Ha. destruct (named names name) eqn:E.
  - rewrite <- (Hab eq_refl). eauto.
  - destruct (into_struct_blind fields Hb v a b a' Ha) as [b' Hb'].
    exists b'. split; [exact Hb' | discriminate].
Qed.

(** The member is stored on both sides. *)
Lemma field_step_both (names : list string) f v p q p' :
  In f Payload_fields ->
  agree_on names p q ->
  snd f v p = Some p' ->
  exists q', snd f v q = Some q' /\ agree_on names p' q'.
Proof.
  intros Hin Hagree H. payload_field Hin.
  - destruct v; simpl in *; try discriminate; injection H as <-;
      eexists; (split; [reflexivity|]); agree_auto.
  - destruct v; simpl in *; try discriminate; injection H as <-;
      eexists; (split; [reflexivity|]); agree_auto.
  - destruct v; simpl in *; try discriminate.
    + injection H as <-. eexists; (split; [reflexivity|]); agree_auto.
    + destruct (forallb any_ok elems); simpl in *; try discriminate.
      injection H as <-. eexists; (split; [reflexivity|]); agree_auto.
  - destruct (into_struct Issue_fields v (Payload_Issue p)) as [a'|] eqn:E;
      [|discriminate]. injection H as <-.
    destruct (struct_step Issue_fields names "issue" v _ (Payload_Issue q) a'
                Issue_fields_blind (proj1 (proj2 (proj2 (proj2 Hagree)))) E)
      as (b' & Eb & Hb).
    rewrite Eb. eexists; (split; [reflexivity|]); agree_auto.
  - destruct (into_struct Forkee_fields v (Payload_Forkee p)) as [a'|] eqn:E;
      [|discriminate]. injection H as <-.
    destruct (struct_step Forkee_fields names "forkee" v _ (Payload_Forkee q) a'
                Forkee_fields_blind
                (proj1 (proj2 (proj2 (proj2 (proj2 Hagree))))) E)
      as (b' & Eb & Hb).
    rewrite Eb. eexists; (split; [reflexivity|]); agree_auto.
  - destruct (into_struct Issue_fields v (Payload_PullRequest p)) as [a'|] eqn:E;
      [|discriminate]. injection H as <-.
    destruct (struct_step Issue_fields names "pull_request" v _
                (Payload_PullRequest q) a' Issue_fields_blind
                (proj2 (proj2 (proj2 (proj2 (proj2 Hagree))))) E)
      as (b' & Eb & Hb).
    rewrite Eb. eexists; (split; [reflexivity|]); agree_auto.
Qed.

(** Storing a member changes no other field than its own. *)
Lemma field_step_left (names : list string) f v p q p' :
  In f Payload_fields ->
  named names (fst f) = false ->
  agree_on names p q ->
  snd f v p = Some p' ->
  agree_on names p' q.
Proof.
  intros Hin Hn Hagree H. payload_field Hin;
    match type of H with
    | option_map _ ?x = _ => destruct x; [|discriminate]
    end; injection H as <-; agree_auto.
Qed.

(** An empty value can be stored in its field, and changes no other. *)
Lemma field_step_empty (names : list string) f v q :
  In f Payload_fields ->
  named names (fst f) = false ->
  empty_value (fst f) v = true ->
  exists q', snd f v q = Some q' /\ agree_on names q' q.
Proof.
  intros Hin Hn Hv. payload_field Hin;
    destruct v as [| | |s|elems|ms];
    try destruct s; try destruct elems; try destruct ms;
    try discriminate Hv; simpl;
    eexists; (split; [reflexivity|]); agree_auto.
Qed.

Lemma agree_on_refl names p : agree_on names p p.
Proof. agree_auto. Qed.

Lemma agree_on_trans names p q r :
  agree_on names p q -> agree_on names q r -> agree_on names p r.
Proof. intros H1 H2. agree_auto. Qed.

Lemma agree_on_sym names p q : agree_on names p q -> agree_on names q p.
Proof. intros H. agree_auto. Qed.

(** Leaving out members that are stored in no field of [names], or
    replacing their values by empty ones, keeps the payload decodable and
    changes no field of [names]. *)
Lemma object_members_blanked (names : list string) ms ms' :
  blanked names ms ms' ->
  forall p q p',
    agree_on names p q ->
    object_members Payload_fields ms p = Some p' ->
    exists q', object_members Payload_fields ms' q = Some q'
               /\ agree_on names p' q'.
Proof.
  induction 1 as [|[k v] ms ms' _ IH|k v ms ms' Hk _ IH
                  |k v v' ms ms' Hk Hv _ IH];
    intros p q p' Hagree H.
  - injection H as <-. exists q. split; [reflexivity | exact Hagree].
  - cbn [object_members] in *.
    destruct (findField Payload_fields k) as [f|] eqn:Ef;
      [|exact (IH _ _ _ Hagree H)].
    destruct (snd f v p) as [p1|] eqn:E1; [|discriminate].
    destruct (field_step_both names f v p q p1 (findField_In _ _ _ Ef) Hagree E1)
      as (q1 & Eq1 & Hagree1).
    rewrite Eq1. exact (IH _ _ _ Hagree1 H).
  - cbn [object_members] in H. unfold targets in Hk.
    destruct (findField Payload_fields k) as [f|] eqn:Ef;
      [|exact (IH _ _ _ Hagree H)].
    destruct (snd f v p) as [p1|] eqn:E1; [|discriminate].
    refine (IH _ _ _ _ H).
    exact (field_step_left names f v p q p1 (findField_In _ _ _ Ef) Hk Hagree E1).
  - cbn [object_members] in *. unfold targets in Hk.
    destruct (findField Payload_fields k) as [f|] eqn:Ef;
      [|exact (IH _ _ _ Hagree H)].
    destruct (snd f v p) as [p1|] eqn:E1; [|discriminate].
    destruct (field_step_empty names f v' q (findField_In _ _ _ Ef) Hk
                (Hv f eq_refl))
      as (q1 & Eq1 & Hq1).
    rewrite Eq1. refine (IH _ _ _ _ H).
    apply agree_on_trans with q; [|apply agree_on_sym; exact Hq1].
    exact (field_step_left names f v p q p1 (findField_In _ _ _ Ef) Hk Hagree E1).
Qed.

(** *** Events *)

Lemma into_Event_event_json (Type_ : string) (repo payload : json) :
  into_Event (event_json Type_ repo payload) Event_zero =
  match into_struct Repo_fields repo Repo_zero with
  | Some r =>
    match into_Payload payload Payload_zero with
    | Some p => Some {| Event_Type := Type_; Event_Repo := r; Event_Payload := p |}
    | None => None
    end
  | None => None
  end.
Proof.
  unfold into_Event, into_Payload, event_json.
  cbn [into_struct object_members].
  change (findField Event_fields "type") with (nth_error Event_fields 0).
  change (findField Event_fields "repo") with (nth_error Event_fields 1).
  change (findField Event_fields "payload") with (nth_error Event_fields 2).
  cbn [nth_error Event_fields snd into_string option_map Event_zero
       Event_Type Event_Repo Event_Payload].
  destruct (into_struct Repo_fields repo Repo_zero) as [r|]; [|reflexivity].
  cbn [option_map Event_Type Event_Repo Event_Payload].
  destruct (into_struct Payload_fields payload Payload_zero) as [p|]; reflexivity.
Qed.

(** The line of an event is made of its type, its repository and the
    payload fields its category reads. *)
Lemma renderEvent_reads (U : unicode.Tables) (e1 e2 : Event) :
  Event_Type e1 = Event_Type e2 ->
  Event_Repo e1 = Event_Repo e2 ->
  agree_on (reads (Event_Type e1)) (Event_Payload e1) (Event_Payload e2) ->
  renderEvent U e1 = renderEvent U e2.
Proof.
  intros Hty Hrepo. unfold renderEvent, reads, agree_on.
  rewrite <- Hty, <- Hrepo.
  repeat match goal with
         | |- context [String.eqb ?x ?y] => destruct (String.eqb x y)
         end;
  cbn [named existsb String.eqb Ascii.eqb Bool.eqb orb];
  intros (H1 & H2 & H3 & H4 & H5 & H6);
  try rewrite (H1 eq_refl); try rewrite (H2 eq_refl); try rewrite (H3 eq_refl);
  try rewrite (H4 eq_refl); try rewrite (H5 eq_refl); try rewrite (H6 eq_refl);
  reflexivity.
Qed.

Lemma unread_zeroed_agree (e : Event) :
  agree_on (reads (Event_Type e)) (Event_Payload (unread_zeroed e))
    (Event_Payload e).
Proof.
  unfold unread_zeroed, agree_on. cbn [Event_Payload Payload_Action
    Payload_RefType Payload_Commits Payload_Issue Payload_Forkee
    Payload_PullRequest].
  repeat split; intros ->; reflexivity.
Qed.

(* ================================================================== *)
(** ** A push without commits *)

Lemma commits_field_only f :
  In f Payload_fields -> named ["commits"] (fst f) = true ->
  forall q, Payload_Commits q = [] -> snd f JNull q = Some q.
Proof.
  intros Hin Hn q Hq. payload_field Hin; try discriminate Hn.
  destruct q. simpl in *. now subst.
Qed.

(** When every member stored in [Commits] is [null], the payload decodes
    as it does without these members, and [Commits] stays empty. *)
Lemma object_members_null_commits (members : list (string * json)) :
  (forall k v, In (k, v) members -> targets ["commits"] k = true -> v = JNull) ->
  forall q p,
    Payload_Commits q = [] ->
    object_members Payload_fields
      (filter (fun kv => negb (targets ["commits"] (fst kv))) members) q = Some p ->
    object_members Payload_fields members q = Some p
    /\ Payload_Commits p = [].
Proof.
  induction members as [|[k v] ms IH]; intros Hnull q p Hq H.
  - injection H as <-. split; [reflexivity | exact Hq].
  - assert (Hms : forall k v, In (k, v) ms ->
                              targets ["commits"] k = true -> v = JNull)
      by (intros; eapply Hnull; [right|]; eauto).
    cbn [filter fst] in H. cbn [object_members].
    destruct (targets ["commits"] k) eqn:Ek; cbn [negb] in H.
    + rewrite (Hnull k v (or_introl eq_refl) Ek).
      unfold targets in Ek.
      destruct (findField Payload_fields k) as [f|] eqn:Ef; [|discriminate].
      rewrite (commits_field_only f (findField_In _ _ _ Ef) Ek q Hq).
      exact (IH Hms q p Hq H).
    + cbn [object_members] in H. unfold targets in Ek.
      destruct (findField Payload_fields k) as [f|] eqn:Ef;
        [|exact (IH Hms q p Hq H)].
      destruct (snd f v q) as [q1|] eqn:E1; [|discriminate].
      apply (IH Hms q1 p); [|exact H].
      pose proof (field_step_left ["commits"] f v q q q1
                    (findField_In _ _ _ Ef) Ek (agree_on_refl _ _) E1) as Ha.
      destruct Ha as (_ & _ & Hc & _). rewrite (Hc eq_refl). exact Hq.
Qed.



(* ================================================================== *)
(** * Further properties of [main.go] *)

(** ** [main] and the paths of [getGithubActivity] *)

Lemma append_inj_l (p a b : string) : p ++ a = p ++ b -> a = b.
Proof.
  induction p as [|c p IH]; simpl; intros H; [exact H|].
  injection H as H. auto.
Qed.

Lemma renderEvent_dash (U : unicode.Tables) (e : Event) :
  exists t, renderEvent U e = "- " ++ t.
Proof.
  unfold renderEvent.
  repeat match goal with
         | |- context [String.eqb ?x ?y] => destruct (String.eqb x y)
         end; eexists; simpl; reflexivity.
Qed.

Lemma ends_with_LF_cons (a s : string) : ends_with_LF s -> ends_with_LF (a ++ s).
Proof.
  intros [t ->]. exists (a ++ t). now rewrite append_assoc.
Qed.

Lemma ends_with_LF_LF : ends_with_LF LF.
Proof. now exists EmptyString. Qed.

Ltac ends_LF :=
  repeat first [ apply ends_with_LF_LF | apply ends_with_LF_cons ].

Lemma renderEvent_ends (U : unicode.Tables) (e : Event) :
  ends_with_LF (renderEvent U e).
Proof.
  unfold renderEvent.
  repeat match goal with
         | |- context [String.eqb ?x ?y] => destruct (String.eqb x y)
         end; ends_LF.
Qed.

Lemma flat_ends (l : list string) :
  l <> [] -> (forall s, In s l -> ends_with_LF s) -> ends_with_LF (flat l).
Proof.
  induction l as [|s l IH]; intros Hne Hall; [contradiction|].
  cbn [flat fold_right]. fold (flat l).
  destruct l as [|s' l].
  - cbn [flat fold_right]. rewrite append_nil_r. apply Hall. now left.
  - apply ends_with_LF_cons. apply IH; [discriminate|].
    intros x Hx. apply Hall. now right.
Qed.

Section Paths.
Variable U : unicode.Tables.
Variable http_Get : string -> get_result.
Variable type_error : json -> string.

(** X1. [main] looks at the number of arguments alone.  With the program
    name and one argument it runs [getGithubActivity] on that argument and
    ends with status 0, whatever the network answers; with any other
    number it prints the usage line, ends with status 1 and sends no
    request. *)
Theorem main_exit_status (Args : list string) :
  (List.length Args = 2%nat ->
   exists prog username,
     Args = [prog; username]
     /\ main U http_Get type_error Args
        = (getGithubActivity U http_Get type_error username, 0))
  /\ (List.length Args <> 2%nat ->
      forall other_Get,
        main U other_Get type_error Args = (usage, 1))
  /\ (snd (main U http_Get type_error Args) = 1 <-> List.length Args <> 2%nat).
Proof.
  destruct Args as [|prog [|username [|x rest]]]; cbn [main List.length snd].
  all: repeat split; intros; try reflexivity; try discriminate;
       try contradiction; try lia; try (exfalso; lia).
  exists prog, username. split; reflexivity.
Qed.

Variable username : string.

Let out := getGithubActivity U http_Get type_error username.
Let url := "https://api.github.com/users/" ++ username ++ "/events".

(** X2. The run depends on the network through the answer to one
    request, that for the events of the user: on a network that answers
    this request alike the output is the same. *)
Theorem only_the_events_url (other_Get : string -> get_result) :
  other_Get url = http_Get url ->
  getGithubActivity U other_Get type_error username = out.
Proof.
  intros H. unfold out, getGithubActivity, url in *. cbv zeta.
  now rewrite H.
Qed.

(** X3. When the request fails, the whole output is one message that
    carries the text of the error; the header is not printed. *)
Theorem transport_error (err : string) :
  http_Get url = Get_err err ->
  out = "Error: Could not reach GitHub API. Reason: " ++ err ++ LF
  /\ ~ starts_with (header username) out.
Proof.
  intros H.
  assert (E : out = "Error: Could not reach GitHub API. Reason: " ++ err ++ LF).
  { unfold out, getGithubActivity, url in *. cbv zeta. now rewrite H. }
  split; [exact E|]. rewrite E. apply error_is_no_header.
Qed.

(** X4. When the status is 200 and reading the body fails, the whole
    output is one message that carries the text of the error; nothing is
    decoded and the header is not printed. *)
Theorem body_read_error (resp : Response) (err : string) :
  http_Get url = Get_ok resp ->
  StatusCode resp = 200 ->
  Body resp = Read_err err ->
  out = "Error: Failed to read response body. Reason: " ++ err ++ LF
  /\ ~ starts_with (header username) out.
Proof.
  intros Hget Hst Hbody.
  assert (E : out = "Error: Failed to read response body. Reason: " ++ err ++ LF).
  { unfold out, getGithubActivity, url in *. cbv zeta.
    now rewrite Hget, Hst, Hbody. }
  split; [exact E|]. rewrite E. apply error_is_no_header.
Qed.

(** X5. The header is printed exactly when the answer has status 200,
    its body is read and [json.Unmarshal] accepts it; in every other run
    the whole output is one line that starts with "Error: ". *)
Theorem header_iff_decoded :
  (starts_with (header username) out <->
   exists body events,
     ok_response http_Get username body
     /\ json_Unmarshal type_error body = inl events)
  /\ (~ starts_with (header username) out ->
      exists msg, out = "Error: " ++ msg ++ LF).
Proof.
  assert (Hcases :
    (exists body events,
       ok_response http_Get username body
       /\ json_Unmarshal type_error body = inl events
       /\ starts_with (header username) out)
    \/ ((exists msg, out = "Error: " ++ msg ++ LF)
        /\ ~ exists body events,
             ok_response http_Get username body
             /\ json_Unmarshal type_error body = inl events)).
  { unfold out, getGithubActivity, ok_response. cbv zeta. fold url.
    destruct (http_Get url) as [err|resp] eqn:Hget.
    - right. split.
      { exists ("Could not reach GitHub API. Reason: " ++ err). reflexivity. }
      intros (b & evs & (r & Hr & _) & _). discriminate Hr.
    - destruct (Z.eqb_spec (StatusCode resp) 404) as [E404|N404].
      + right. split.
        { exists ("Could not find GitHub user '" ++ username ++ "'.").
          simpl. now rewrite append_assoc. }
        intros (b & evs & (r & [= <-] & Hst & _) & _). lia.
      + destruct (Z.eqb_spec (StatusCode resp) 200) as [E200|N200]; cbn [negb].
        * destruct (Body resp) as [err|body] eqn:Hbody.
          -- right. split.
             { exists ("Failed to read response body. Reason: " ++ err).
               reflexivity. }
             intros (b & evs & (r & [= <-] & _ & Hb) & _). congruence.
          -- destruct (json_Unmarshal type_error body) as [events|err] eqn:Hdec.
             ++ left. exists body, events. split; [|split].
                ** exists resp. auto.
                ** exact Hdec.
                ** destruct (Nat.eqb (List.length events) 0).
                   --- eexists; reflexivity.
                   --- rewrite renderEvents_flat. eexists; reflexivity.
             ++ right. split.
                { exists ("Failed to parse the response from the GitHub API. Reason: "
                            ++ err). reflexivity. }
                intros (b & evs & (r & [= <-] & _ & Hb) & Hd).
                rewrite Hbody in Hb. injection Hb as <-. congruence.
        * right. split.
          { exists ("Received status code " ++ itoa (StatusCode resp)
                      ++ " from GitHub API.").
            simpl. now rewrite !append_assoc. }
          intros (b & evs & (r & [= <-] & Hst & _) & _). contradiction. }
  split; [split|].
  - intros Hh. destruct Hcases as [(b & evs & H1 & H2 & _)|[[msg E] _]].
    + eauto.
    + exfalso. rewrite E in Hh. revert Hh. apply error_is_no_header.
  - intros Hex. destruct Hcases as [(b & evs & _ & _ & H)|[_ Hno]];
      [exact H | contradiction].
  - intros Hno. destruct Hcases as [(b & evs & _ & _ & H)|[Hmsg _]];
      [contradiction | exact Hmsg].
Qed.

(** X6. On a 200 response the message that no activity was found is the
    whole of the output after the header exactly when the body is [null]
    or the empty array. *)
Theorem no_activity_iff (body : json_text) :
  ok_response http_Get username body ->
  (out = header username ++ "No recent public activity found." ++ LF
   <-> body = Document JNull \/ body = Document (JArray [])).
Proof.
  intros Hok. unfold out.
  rewrite (run_200 U http_Get type_error username body Hok).
  split.
  - destruct (json_Unmarshal type_error body) as [events|err] eqn:Hdec.
    + destruct events as [|e events]; cbn [List.length Nat.eqb].
      * intros _. unfold json_Unmarshal, into_events, into_slice in Hdec.
        destruct body as [s|v]; [discriminate|].
        destruct v; try discriminate; auto.
        destruct elems as [|x elems]; auto.
        cbn [array_elems] in Hdec.
        destruct (into_Event x Event_zero); [|discriminate].
        destruct (array_elems into_Event Event_zero elems); discriminate.
      * rewrite renderEvents_flat. intros H. apply append_inj_l in H.
        cbn [map flat fold_right] in H.
        destruct (renderEvent_dash U e) as [t Ht]. rewrite Ht in H.
        discriminate H.
    + intros H. discriminate H.
  - intros [->| ->]; reflexivity.
Qed.

(** X7. Whatever the network answers, the output ends with a line feed
    (and so is never empty). *)
Theorem output_ends_with_LF : ends_with_LF out.
Proof.
  unfold out, getGithubActivity. cbv zeta.
  destruct (http_Get _) as [err|resp]; [ends_LF|].
  destruct (StatusCode resp =? 404); [ends_LF|].
  destruct (negb (StatusCode resp =? 200)); [ends_LF|].
  destruct (Body resp) as [err|body]; [ends_LF|].
  destruct (json_Unmarshal type_error body) as [events|err]; [|ends_LF].
  destruct events as [|e events]; cbn [List.length Nat.eqb]; [ends_LF|].
  rewrite renderEvents_flat. apply ends_with_LF_cons, flat_ends.
  - discriminate.
  - intros s Hs. apply in_map_iff in Hs. destruct Hs as (x & <- & _).
    apply renderEvent_ends.
Qed.

End Paths.

(** Closed instances of X2, X3, X4 and X6. *)
Lemma only_the_events_url_witness :
  getGithubActivity ascii_only always_404 type_error_text "octocat"
  = getGithubActivity ascii_only (octocat_answers 404 (Document (JArray [])))
      type_error_text "octocat".
Proof.
  exact (only_the_events_url ascii_only
           (octocat_answers 404 (Document (JArray []))) type_error_text
           "octocat" always_404 eq_refl).
Defined.

Lemma transport_error_witness :
  getGithubActivity ascii_only (octocat_answers 200 (Document (JArray [])))
    type_error_text "nobody"
  = "Error: Could not reach GitHub API. Reason: dial tcp: lookup failed" ++ LF
  /\ ~ starts_with (header "nobody")
       (getGithubActivity ascii_only (octocat_answers 200 (Document (JArray [])))
          type_error_text "nobody").
Proof.
  exact (transport_error ascii_only
           (octocat_answers 200 (Document (JArray []))) type_error_text "nobody"
           "dial tcp: lookup failed" eq_refl).
Defined.

Lemma body_read_error_witness :
  getGithubActivity ascii_only (body_breaks "unexpected EOF") type_error_text
    "octocat"
  = "Error: Failed to read response body. Reason: unexpected EOF" ++ LF
  /\ ~ starts_with (header "octocat")
       (getGithubActivity ascii_only (body_breaks "unexpected EOF")
          type_error_text "octocat").
Proof.
  exact (body_read_error ascii_only (body_breaks "unexpected EOF")
           type_error_text "octocat"
           {| StatusCode := 200; Body := Read_err "unexpected EOF" |}
           "unexpected EOF" eq_refl eq_refl eq_refl).
Defined.

Lemma no_activity_iff_witness :
  getGithubActivity ascii_only (octocat_answers 200 (Document JNull))
    type_error_text "octocat"
  = header "octocat" ++ "No recent public activity found." ++ LF
  <-> Document JNull = Document JNull \/ Document JNull = Document (JArray []).
Proof.
  refine (no_activity_iff ascii_only (octocat_answers 200 (Document JNull))
            type_error_text "octocat" (Document JNull) _).
  exists {| StatusCode := 200; Body := Read_ok (Document JNull) |}.
  repeat split; reflexivity.
Defined.

(* ================================================================== *)
(** ** The other cases of the switch *)

Section OtherCases.
Variable U : unicode.Tables.
Variable http_Get : string -> get_result.
Variable type_error : json -> string.
Variable username : string.
Variable body : json_text.
Hypothesis response : ok_response http_Get username body.
Variables before after : list Event.
Variable event : Event.
Hypothesis decoded :
  json_Unmarshal type_error body = inl (before ++ event :: after)%list.

Let out := getGithubActivity U http_Get type_error username.
Let printed (line : string) : Prop :=
  out = header username ++ flat (map (renderEvent U) before)
          ++ line ++ flat (map (renderEvent U) after).

Let printed_event : printed (renderEvent U event) :=
  printed_renderEvent U http_Get type_error username body response
    before after event decoded.

(** X8. The four cases of the switch that the claims leave out, each in
    the event's place among the lines: a create event prints "- Created a
    new {ref_type} in {repo}", an issue comment "- Commented on an issue
    in {repo}: "{issue title}"", a fork "- Forked {repo} to {forkee full
    name}" and a public event "- Made {repo} public". *)
Theorem other_category_lines :
  (Event_Type event = "CreateEvent" ->
   printed ("- Created a new " ++ Payload_RefType (Event_Payload event)
              ++ " in " ++ Repo_Name (Event_Repo event) ++ LF))
  /\ (Event_Type event = "IssueCommentEvent" ->
      printed ("- Commented on an issue in " ++ Repo_Name (Event_Repo event)
                 ++ ": " ++ quote
                 ++ Issue_Title (Payload_Issue (Event_Payload event))
                 ++ quote ++ LF))
  /\ (Event_Type event = "ForkEvent" ->
      printed ("- Forked " ++ Repo_Name (Event_Repo event) ++ " to "
                 ++ Forkee_FullName (Payload_Forkee (Event_Payload event))
                 ++ LF))
  /\ (Event_Type event = "PublicEvent" ->
      printed ("- Made " ++ Repo_Name (Event_Repo event) ++ " public" ++ LF)).
Proof.
  pose proof printed_event as H. unfold renderEvent in H.
  repeat split; intros Hty; rewrite Hty in H; exact H.
Qed.

End OtherCases.

(** A closed instance of X8: a fork of [a/b], after a push. *)
Lemma other_category_lines_witness :
  getGithubActivity ascii_only
    (octocat_answers 200 (Document (JArray [push_x_y; fork_a_b])))
    type_error_text "octocat"
  = "Recent Activity for octocat:" ++ LF ++ LF
      ++ "- Pushed 3 commit(s) to x/y" ++ LF
      ++ "- Forked a/b to octocat/b" ++ LF.
Proof.
  refine (proj1 (proj2 (proj2
            (other_category_lines ascii_only
               (octocat_answers 200 (Document (JArray [push_x_y; fork_a_b])))
               type_error_text "octocat"
               (Document (JArray [push_x_y; fork_a_b])) _
               [mkEvent "PushEvent" "x/y"
                  (set_Commits Payload_zero [JObject []; JObject []; JObject []])]
               []
               (mkEvent "ForkEvent" "a/b"
                  (set_Forkee Payload_zero {| Forkee_FullName := "octocat/b" |}))
               eq_refl))) eq_refl).
  exists {| StatusCode := 200;
            Body := Read_ok (Document (JArray [push_x_y; fork_a_b])) |}.
  repeat split; reflexivity.
Defined.

(* ================================================================== *)
(** ** Decoding: keys *)

Lemma object_members_app {T : Type} (fields : list (@field T))
    (ms1 ms2 : list (string * json)) :
  forall cur,
    object_members fields (ms1 ++ ms2) cur =
    match object_members fields ms1 cur with
    | Some cur' => object_members fields ms2 cur'
    | None => None
    end.
Proof.
  induction ms1 as [|[k v] ms1 IH]; intros cur; [reflexivity|].
  cbn [app object_members].
  destruct (findField fields k) as [f|]; [|apply IH].
  destruct (snd f v cur) as [cur'|]; [apply IH | reflexivity].
Qed.

Lemma findField_None {T : Type} (fields : list (@field T)) (key : string) :
  findField fields key = None <-> ~ In (foldName key) (folded_names fields).
Proof.
  unfold findField, folded_names. split.
  - intros H Hin. apply in_map_iff in Hin. destruct Hin as (f & Hf & Hin).
    destruct (byExactName fields key); [discriminate|].
    unfold byFoldedName in H.
    pose proof (find_none _ _ H f Hin) as Hn. cbn beta in Hn.
    rewrite Hf, String.eqb_refl in Hn. discriminate.
  - intros Hn.
    assert (Hfold : byFoldedName fields key = None).
    { destruct (byFoldedName fields key) as [f|] eqn:E; [|reflexivity].
      unfold byFoldedName in E.
      apply find_some in E. destruct E as [Hin Hf].
      apply String.eqb_eq in Hf. exfalso. apply Hn.
      apply in_map_iff. exists f. auto. }
    destruct (byExactName fields key) as [f|] eqn:E; [|exact Hfold].
    unfold byExactName in E. apply find_some in E. destruct E as [Hin Hf].
    apply String.eqb_eq in Hf. exfalso. apply Hn.
    apply in_map_iff. exists f. split; [now rewrite Hf | exact Hin].
Qed.

Lemma find_the_one {A B : Type} (h : A -> B) (p : A -> bool) (l : list A) (x : A) :
  NoDup (map h l) -> In x l -> p x = true ->
  (forall y, In y l -> p y = true -> h y = h x) ->
  find p l = Some x.
Proof.
  induction l as [|a l IH]; intros Hnd Hin Hpx Hall; [contradiction|].
  cbn [map] in Hnd. inversion Hnd as [|? ? Hnotin Hnd']; subst.
  cbn [find]. destruct (p a) eqn:Hpa.
  - destruct Hin as [->|Hin]; [reflexivity|].
    exfalso. apply Hnotin.
    rewrite (Hall a (or_introl eq_refl) Hpa). now apply in_map.
  - destruct Hin as [->|Hin]; [congruence|].
    apply IH; auto. intros y Hy. apply Hall. now right.
Qed.

(** When the names of the fields are distinct up to case, looking for an
    exact match first changes nothing: the field is found by the folded
    key alone. *)
Lemma findField_folded {T : Type} (fields : list (@field T)) (key : string) :
  NoDup (folded_names fields) ->
  findField fields key = byFoldedName fields key.
Proof.
  intros Hnd. unfold findField.
  destruct (byExactName fields key) as [f|] eqn:E; [|reflexivity].
  unfold byExactName in E. apply find_some in E. destruct E as [Hin Hf].
  apply String.eqb_eq in Hf. symmetry. unfold byFoldedName.
  apply (find_the_one (fun f => foldName (fst f))); auto.
  - cbn beta. rewrite Hf. apply String.eqb_refl.
  - intros y _ Hy. cbn beta in Hy. apply String.eqb_eq in Hy.
    now rewrite Hy, Hf.
Qed.

Lemma program_names_distinct :
  NoDup (folded_names Event_fields) /\ NoDup (folded_names Payload_fields)
  /\ NoDup (folded_names Repo_fields) /\ NoDup (folded_names Issue_fields)
  /\ NoDup (folded_names Forkee_fields).
Proof.
  repeat split;
    repeat (constructor; [cbn; intuition discriminate|]); constructor.
Qed.

Section Keys.
Context {T : Type}.
Variable fields : list (@field T).

(** X9. A member whose key is the name of no field, in any letter case,
    is skipped whatever its value: the struct decodes as it does without
    the member. *)
Theorem unknown_member_skipped (key : string) (v : json)
    (ms1 ms2 : list (string * json)) (cur : T) :
  ~ In (foldName key) (folded_names fields) ->
  into_struct fields (JObject (ms1 ++ (key, v) :: ms2)) cur
  = into_struct fields (JObject (ms1 ++ ms2)) cur.
Proof.
  intros Hk. apply findField_None in Hk. cbn [into_struct].
  rewrite !object_members_app.
  destruct (object_members fields ms1 cur) as [c|]; [|reflexivity].
  cbn [object_members]. now rewrite Hk.
Qed.

(** X10. Keys are read without regard to letter case: when the names of
    the fields are distinct up to case, as those of every struct of the
    program are, a member decodes alike under any key with the same
    case fold. *)
Theorem key_case_is_ignored (key key' : string) (v : json)
    (ms1 ms2 : list (string * json)) (cur : T) :
  NoDup (folded_names fields) ->
  foldName key = foldName key' ->
  into_struct fields (JObject (ms1 ++ (key, v) :: ms2)) cur
  = into_struct fields (JObject (ms1 ++ (key', v) :: ms2)) cur.
Proof.
  intros Hnd Hfold. cbn [into_struct]. rewrite !object_members_app.
  destruct (object_members fields ms1 cur) as [c|]; [|reflexivity].
  cbn [object_members]. rewrite !(findField_folded fields _ Hnd).
  unfold byFoldedName. now rewrite Hfold.
Qed.

End Keys.

(** A closed instance of X9: the time of the event is no field. *)
Lemma unknown_member_skipped_witness :
  into_Event
    (JObject ([("type", JString "WatchEvent")]
                ++ ("created_at", JNumber false)
                :: [("repo", repo_json "a/b")]))
    Event_zero
  = into_Event
      (JObject ([("type", JString "WatchEvent")] ++ [("repo", repo_json "a/b")]))
      Event_zero.
Proof.
  refine (unknown_member_skipped Event_fields "created_at" (JNumber false)
            [("type", JString "WatchEvent")] [("repo", repo_json "a/b")]
            Event_zero _).
  cbn. intuition discriminate.
Defined.

(** A closed instance of X10: [Type] for [type]. *)
Lemma key_case_is_ignored_witness :
  into_Event
    (JObject ([] ++ ("Type", JString "WatchEvent") :: [("repo", repo_json "a/b")]))
    Event_zero
  = into_Event
      (JObject ([] ++ ("type", JString "WatchEvent") :: [("repo", repo_json "a/b")]))
      Event_zero.
Proof.
  exact (key_case_is_ignored Event_fields "Type" "type" (JString "WatchEvent")
           [] [("repo", repo_json "a/b")] Event_zero
           (proj1 program_names_distinct) eq_refl).
Defined.

(* ================================================================== *)
(** ** Decoding: values *)

Lemma scalar_in_no_field f v cur :
  In f Payload_fields -> scalar v = true -> snd f v cur = None.
Proof.
  intros Hin Hv. payload_field Hin; destruct v; try discriminate Hv; reflexivity.
Qed.

Lemma object_members_fails (ms : list (string * json)) key v f :
  In (key, v) ms ->
  findField Payload_fields key = Some f ->
  (forall cur, snd f v cur = None) ->
  forall cur, object_members Payload_fields ms cur = None.
Proof.
  intros Hin Hf Hfail.
  induction ms as [|[k x] ms IH]; intros cur; [contradiction|].
  cbn [object_members]. destruct Hin as [[= -> ->]|Hin].
  - now rewrite Hf, Hfail.
  - destruct (findField Payload_fields k) as [g|]; [|now apply IH].
    destruct (snd g x cur); [now apply IH | reflexivity].
Qed.

Lemma array_elems_length {T : Type} (into : json -> T -> option T) (zero : T)
    (elems : list json) :
  forall xs, array_elems into zero elems = Some xs ->
             List.length xs = List.length elems.
Proof.
  induction elems as [|v elems IH]; intros xs H; cbn [array_elems] in H.
  - now injection H as <-.
  - destruct (into v zero); [|discriminate].
    destruct (array_elems into zero elems) as [ys|]; [|discriminate].
    injection H as <-. cbn [List.length]. f_equal. now apply IH.
Qed.

(** Members that are not stored in [Commits] leave it as it is. *)
Lemma commits_kept (ms : list (string * json)) :
  (forall k v, In (k, v) ms -> targets ["commits"] k = false) ->
  forall q p,
    object_members Payload_fields ms q = Some p ->
    Payload_Commits p = Payload_Commits q.
Proof.
  induction ms as [|[k v] ms IH]; intros Hms q p H.
  - now injection H as <-.
  - cbn [object_members] in H.
    assert (Hk : targets ["commits"] k = false) by (apply (Hms k v); now left).
    assert (Hrest : forall k v, In (k, v) ms -> targets ["commits"] k = false)
      by (intros; eapply Hms; right; eauto).
    unfold targets in Hk.
    destruct (findField Payload_fields k) as [f|] eqn:Ef; [|now apply IH].
    destruct (snd f v q) as [q1|] eqn:E1; [|discriminate].
    rewrite (IH Hrest q1 p H).
    pose proof (field_step_left ["commits"] f v q q q1
                  (findField_In _ _ _ Ef) Hk (agree_on_refl _ _) E1) as Ha.
    destruct Ha as (_ & _ & Hc & _). exact (Hc eq_refl).
Qed.

Lemma commits_field_stores f elems q q' :
  In f Payload_fields -> named ["commits"] (fst f) = true ->
  snd f (JArray elems) q = Some q' -> Payload_Commits q' = elems.
Proof.
  intros Hin Hn H. payload_field Hin; try discriminate Hn.
  cbn [into_anys] in H. destruct (forallb any_ok elems); [|discriminate].
  now injection H as <-.
Qed.

Section Values.
Variable U : unicode.Tables.
Variable http_Get : string -> get_result.
Variable type_error : json -> string.
Variable username : string.

Let out := getGithubActivity U http_Get type_error username.

(** X11. Decoding is all or nothing.  When one event of the array has a
    boolean or a number in a member of its payload that is stored in a
    field, be it a field its category does not read, the whole output is
    one parse-error message: no line is printed for any event. *)
Theorem misplaced_scalar_fails_the_run
    (elems : list json) (Type_ : string) (repo : json)
    (members : list (string * json)) (key : string) (v : json) :
  ok_response http_Get username (Document (JArray elems)) ->
  In (event_json Type_ repo (JObject members)) elems ->
  In (key, v) members ->
  In (foldName key) (folded_names Payload_fields) ->
  scalar v = true ->
  out = "Error: Failed to parse the response from the GitHub API. Reason: "
          ++ type_error (JArray elems) ++ LF.
Proof.
  intros Hok Hev Hin Hkey Hv.
  destruct (findField Payload_fields key) as [f|] eqn:Ef;
    [|apply findField_None in Ef; contradiction].
  assert (Hnone : into_Event (event_json Type_ repo (JObject members)) Event_zero
                  = None).
  { rewrite into_Event_event_json.
    destruct (into_struct Repo_fields repo Repo_zero); [|reflexivity].
    unfold into_Payload, into_struct.
    rewrite (object_members_fails members key v f Hin Ef); [reflexivity|].
    intros cur. apply scalar_in_no_field; [|exact Hv].
    exact (findField_In _ _ _ Ef). }
  unfold out. rewrite (run_200 U http_Get type_error username _ Hok).
  unfold json_Unmarshal, into_events, into_slice.
  assert (E : array_elems into_Event Event_zero elems = None)
    by (apply array_elems_None; eauto).
  now rewrite E.
Qed.

(** X12. The count of a push is the number of entries of the last array
    stored in [Commits]: when the event decodes, and no member of its
    payload after that array is stored in [Commits], the line reports the
    length of the array. *)
Theorem push_counts_last_commits_array
    (repo : string) (ms1 ms2 : list (string * json)) (key : string)
    (entries : list json) (e : Event) :
  foldName key = foldName "commits" ->
  (forall k v, In (k, v) ms2 -> targets ["commits"] k = false) ->
  into_Event
    (event_json "PushEvent" (repo_json repo)
       (JObject (ms1 ++ (key, JArray entries) :: ms2)))
    Event_zero = Some e ->
  Payload_Commits (Event_Payload e) = entries
  /\ renderEvent U e
     = "- Pushed " ++ itoa (Z.of_nat (List.length entries))
         ++ " commit(s) to " ++ repo ++ LF.
Proof.
  intros Hkey Hms2 Hdec.
  assert (Hfind : exists f, findField Payload_fields key = Some f
                            /\ In f Payload_fields
                            /\ named ["commits"] (fst f) = true).
  { rewrite (findField_folded Payload_fields key
               (proj1 (proj2 program_names_distinct))).
    unfold byFoldedName. rewrite Hkey. eexists. split; [reflexivity|].
    split; [|reflexivity]. cbn. auto. }
  destruct Hfind as (f & Hf & Hin & Hn).
  rewrite into_Event_event_json in Hdec.
  change (into_struct Repo_fields (repo_json repo) Repo_zero)
    with (Some {| Repo_Name := repo |}) in Hdec.
  destruct (into_Payload _ Payload_zero) as [p|] eqn:Ep; [|discriminate].
  injection Hdec as <-.
  unfold into_Payload, into_struct in Ep. rewrite object_members_app in Ep.
  destruct (object_members Payload_fields ms1 Payload_zero) as [c1|];
    [|discriminate].
  cbn [object_members] in Ep. rewrite Hf in Ep.
  destruct (snd f (JArray entries) c1) as [c2|] eqn:E2; [|discriminate].
  assert (Hc : Payload_Commits p = entries).
  { rewrite (commits_kept ms2 Hms2 c2 p Ep).
    exact (commits_field_stores f entries c1 c2 Hin Hn E2). }
  split; [exact Hc|].
  unfold renderEvent. cbn [Event_Type Event_Repo Event_Payload Repo_Name].
  rewrite Hc. reflexivity.
Qed.

End Values.

(** A closed instance of X11: a push whose payload holds a number for
    its issue. *)
Lemma misplaced_scalar_fails_the_run_witness :
  getGithubActivity ascii_only
    (octocat_answers 200
       (Document (JArray
          [push_x_y;
           event_json "PushEvent" (repo_json "x/y")
             (JObject [("commits", JArray []); ("Issue", JNumber true)])])))
    type_error_text "octocat"
  = "Error: Failed to parse the response from the GitHub API. Reason: "
      ++ type_error_text
           (JArray
              [push_x_y;
               event_json "PushEvent" (repo_json "x/y")
                 (JObject [("commits", JArray []); ("Issue", JNumber true)])])
      ++ LF.
Proof.
  refine (misplaced_scalar_fails_the_run ascii_only
            (octocat_answers 200 _) type_error_text "octocat"
            [push_x_y;
             event_json "PushEvent" (repo_json "x/y")
               (JObject [("commits", JArray []); ("Issue", JNumber true)])]
            "PushEvent" (repo_json "x/y")
            [("commits", JArray []); ("Issue", JNumber true)]
            "Issue" (JNumber true) _ _ _ _ eq_refl).
  - eexists. repeat split; reflexivity.
  - right. left. reflexivity.
  - right. left. reflexivity.
  - cbn. auto 10.
Defined.

(** A closed instance of X12: two arrays of commits, the last of two
    entries, then the branch. *)
Lemma push_counts_last_commits_array_witness :
  Payload_Commits
    (Event_Payload
       (mkEvent "PushEvent" "x/y" (set_Commits Payload_zero [JNull; JNull])))
  = [JNull; JNull]
  /\ renderEvent ascii_only
       (mkEvent "PushEvent" "x/y" (set_Commits Payload_zero [JNull; JNull]))
     = "- Pushed " ++ itoa (Z.of_nat (List.length [JNull; JNull]))
         ++ " commit(s) to " ++ "x/y" ++ LF.
Proof.
  refine (push_counts_last_commits_array ascii_only "x/y"
            [("commits", JArray [JNull; JNull; JNull])]
            [("ref", JString "refs/heads/main")]
            "Commits" [JNull; JNull]
            (mkEvent "PushEvent" "x/y" (set_Commits Payload_zero [JNull; JNull]))
            eq_refl _ eq_refl).
  intros k v [[= <- <-]|[]]. reflexivity.
Defined.

(* ================================================================== *)
(** ** [strings.Title] on ASCII text *)

Lemma byte_val_to_byte (x : Z) : 0 <= x < 256 -> byte_val (to_byte x) = x.
Proof.
  intros H. unfold byte_val, to_byte. rewrite Z.mod_small by lia.
  rewrite N_ascii_embedding by lia. lia.
Qed.

Lemma byte_val_inj (c d : ascii) : byte_val c = byte_val d -> c = d.
Proof.
  intros H. rewrite <- (to_byte_val c), <- (to_byte_val d). now rewrite H.
Qed.

Lemma upper_byte_val (c : ascii) :
  byte_val c < 128 ->
  byte_val (upper_byte c)
  = (if (97 <=? byte_val c) && (byte_val c <=? 122)
     then byte_val c - 32 else byte_val c)
  /\ byte_val (upper_byte c) < 128.
Proof.
  intros H. pose proof (byte_val_range c) as R. unfold upper_byte.
  destruct ((97 <=? byte_val c) && (byte_val c <=? 122)) eqn:E.
  - apply andb_prop in E. destruct E as [E1 E2]. apply Z.leb_le in E1, E2.
    rewrite byte_val_to_byte by lia. lia.
  - lia.
Qed.

Section TitleAscii.
Variable U : unicode.Tables.

Lemma isSeparator_ascii (c : ascii) :
  byte_val c < 128 ->
  strings.isSeparator U (byte_val c) = negb (word_byte c).
Proof.
  unfold word_byte, strings.isSeparator.
  change (unicode.ch "0") with 48. change (unicode.ch "9") with 57.
  change (unicode.ch "a") with 97. change (unicode.ch "z") with 122.
  change (unicode.ch "A") with 65. change (unicode.ch "Z") with 90.
  change (unicode.ch "_") with 95. change 0x7F with 127.
  pose proof (byte_val_range c) as R. set (b := byte_val c) in *.
  intros H. split_comparisons; try reflexivity; lia.
Qed.

Lemma ToTitle_ascii (c : ascii) :
  byte_val c < 128 ->
  unicode.ToTitle U (byte_val c) = byte_val (upper_byte c).
Proof.
  intros H. rewrite (proj1 (upper_byte_val c H)).
  unfold unicode.ToTitle, unicode.MaxASCII.
  change (unicode.ch "a") with 97. change (unicode.ch "z") with 122.
  change (unicode.ch "A") with 65. change 0x7F with 127.
  destruct (Z.leb_spec (byte_val c) 127); [|lia].
  destruct ((97 <=? byte_val c) && (byte_val c <=? 122)); lia.
Qed.

(** What the closure of [Title] returns on an ASCII byte. *)
Lemma Title_mapping_ascii (prev : rune) (c : ascii) :
  byte_val c < 128 ->
  strings.Title_mapping U prev (byte_val c)
  = (byte_val (if strings.isSeparator U prev then upper_byte c else c),
     byte_val c).
Proof.
  intros H. unfold strings.Title_mapping.
  destruct (strings.isSeparator U prev); [|reflexivity].
  now rewrite ToTitle_ascii.
Qed.

Lemma Map_write_ascii (s : string) :
  all_ascii s = true ->
  forall prev,
    strings.Map_write (strings.Title_mapping U) prev (byte_chunks s)
    = title_bytes (strings.isSeparator U prev) s.
Proof.
  induction s as [|c s IH]; intros Hs prev; [reflexivity|].
  simpl in Hs. apply andb_prop in Hs. destruct Hs as [Hc Hs].
  apply Z.ltb_lt in Hc.
  cbn [byte_chunks strings.Map_write title_bytes].
  rewrite (Title_mapping_ascii prev c Hc).
  rewrite WriteRune_ascii, (IH Hs), (isSeparator_ascii c Hc); [reflexivity|].
  destruct (strings.isSeparator U prev); [|exact Hc].
  apply (upper_byte_val c Hc).
Qed.

Lemma Map_scan_ascii (s : string) :
  all_ascii s = true ->
  forall prev,
    strings.Map_scan (strings.Title_mapping U) prev (byte_chunks s)
    = title_bytes (strings.isSeparator U prev) s.
Proof.
  induction s as [|c s IH]; intros Hs prev; [reflexivity|].
  simpl in Hs. apply andb_prop in Hs. destruct Hs as [Hc Hs].
  apply Z.ltb_lt in Hc.
  cbn [byte_chunks strings.Map_scan title_bytes].
  rewrite (Title_mapping_ascii prev c Hc).
  set (c' := if strings.isSeparator U prev then upper_byte c else c).
  assert (Hc' : byte_val c' < 128).
  { subst c'. destruct (strings.isSeparator U prev); [|exact Hc].
    apply (upper_byte_val c Hc). }
  destruct (Z.eqb_spec (byte_val c) utf8.RuneError) as [E|_];
    [unfold utf8.RuneError in E; lia|].
  destruct (Z.eqb_spec (byte_val c') (byte_val c)) as [E|_]; cbn [andb negb].
  - apply byte_val_inj in E. rewrite E.
    rewrite (IH Hs), (isSeparator_ascii c Hc). reflexivity.
  - rewrite (WriteRune_ascii c' Hc'), (Map_write_ascii s Hs),
      (isSeparator_ascii c Hc). reflexivity.
Qed.

(** X14. On ASCII text [strings.Title] consults no table of [unicode] and
    keeps every byte in its place: it upper-cases the letters that start
    the text or follow a byte that is no letter, digit or underscore, and
    changes nothing else. *)
Theorem Title_on_ascii (s : string) :
  all_ascii s = true ->
  strings.Title U s = title_bytes true s
  /\ String.length (strings.Title U s) = String.length s.
Proof.
  intros Hs.
  assert (E : strings.Title U s = title_bytes true s).
  { unfold strings.Title, strings.Map.
    rewrite (range_ascii s Hs), (Map_scan_ascii s Hs). reflexivity. }
  split; [exact E|]. rewrite E. clear.
  generalize true. induction s as [|c s IH]; intros b; [reflexivity|].
  cbn [title_bytes String.length]. now rewrite IH.
Qed.

End TitleAscii.

(** A closed instance of X14: three words. *)
Lemma Title_on_ascii_witness :
  strings.Title ascii_only "review_requested by-octocat 2nd"
  = "Review_requested By-Octocat 2nd"
  /\ String.length (strings.Title ascii_only "review_requested by-octocat 2nd")
     = String.length "review_requested by-octocat 2nd".
Proof.
  exact (Title_on_ascii ascii_only "review_requested by-octocat 2nd" eq_refl).
Defined.

(* ================================================================== *)
(** ** An event without a type *)

Lemma findField_fold {T : Type} (fields : list (@field T)) (key : string) f :
  findField fields key = Some f -> foldName (fst f) = foldName key.
Proof.
  unfold findField.
  destruct (byExactName fields key) as [g|] eqn:E.
  - intros [= <-]. unfold byExactName in E. apply find_some in E.
    destruct E as [_ E]. apply String.eqb_eq in E. now rewrite E.
  - intros H. unfold byFoldedName in H. apply find_some in H.
    destruct H as [_ H]. now apply String.eqb_eq in H.
Qed.

(** Members that are not stored in [Type] leave it as it is. *)
Lemma Type_kept (ms : list (string * json)) :
  (forall k v, In (k, v) ms -> foldName k <> foldName "type") ->
  forall e e',
    object_members Event_fields ms e = Some e' -> Event_Type e' = Event_Type e.
Proof.
  induction ms as [|[k v] ms IH]; intros Hms e e' H.
  - now injection H as <-.
  - cbn [object_members] in H.
    assert (Hk : foldName k <> foldName "type") by (apply (Hms k v); now left).
    assert (Hrest : forall k v, In (k, v) ms -> foldName k <> foldName "type")
      by (intros; eapply Hms; right; eauto).
    destruct (findField Event_fields k) as [f|] eqn:Ef; [|now apply IH].
    destruct (snd f v e) as [e1|] eqn:E1; [|discriminate].
    rewrite (IH Hrest e1 e' H).
    pose proof (findField_fold _ _ _ Ef) as Hfold.
    apply findField_In in Ef. simpl in Ef.
    destruct Ef as [<-|[<-|[<-|[]]]]; cbn [fst snd] in *.
    + congruence.
    + destruct (into_struct Repo_fields v (Event_Repo e)); [|discriminate].
      now injection E1 as <-.
    + destruct (into_struct Payload_fields v (Event_Payload e)); [|discriminate].
      now injection E1 as <-.
Qed.

(** X15. An event object with no member for the type, in any letter
    case, decodes to an event of the empty type, and its line is that of
    the default case with nothing for the category: "- Performed a  on
    {repo}". *)
Theorem event_without_type (U : unicode.Tables)
    (members : list (string * json)) (e : Event) :
  (forall k v, In (k, v) members -> foldName k <> foldName "type") ->
  into_Event (JObject members) Event_zero = Some e ->
  Event_Type e = EmptyString
  /\ renderEvent U e
     = "- Performed a " ++ EmptyString ++ " on " ++ Repo_Name (Event_Repo e) ++ LF.
Proof.
  intros Hms Hdec.
  assert (Hty : Event_Type e = EmptyString)
    by exact (Type_kept members Hms Event_zero e Hdec).
  split; [exact Hty|]. unfold renderEvent. rewrite Hty. reflexivity.
Qed.

(** A closed instance of X15: an object with a repository alone. *)
Lemma event_without_type_witness :
  Event_Type (mkEvent EmptyString "a/b" Payload_zero) = EmptyString
  /\ renderEvent ascii_only (mkEvent EmptyString "a/b" Payload_zero)
     = "- Performed a " ++ EmptyString ++ " on " ++ "a/b" ++ LF.
Proof.
  refine (event_without_type ascii_only [("repo", repo_json "a/b")]
            (mkEvent EmptyString "a/b" Payload_zero) _ eq_refl).
  intros k v [[= <- <-]|[]]. discriminate.
Defined.

(* ================================================================== *)
(** * The lines of the output *)

(** ** Text lines *)

Lemma lines_from_app (s rest : string) :
  forall cur,
    lines_from cur (s ++ LF ++ rest)
    = (lines_from cur (s ++ LF) ++ lines_from EmptyString rest)%list.
Proof.
  induction s as [|c s IH]; intros cur; [reflexivity|].
  cbn [append lines_from].
  destruct (Ascii.eqb c "010"); [|apply IH].
  cbn [app]. f_equal. apply IH.
Qed.

(** The lines of a text that follows a text ended by a line feed. *)
Lemma text_lines_app (s rest : string) :
  ends_with_LF s -> text_lines (s ++ rest) = (text_lines s ++ text_lines rest)%list.
Proof.
  intros [t ->]. unfold text_lines. rewrite append_assoc.
  apply lines_from_app.
Qed.

Lemma header_ends (username : string) : ends_with_LF (header username).
Proof. unfold header. ends_LF. Qed.

(** The lines of a run that printed the header and then [lines], each
    one line. *)
Lemma text_lines_run (username : string) (lines : list string) :
  Forall one_line lines ->
  text_lines (header username ++ flat lines)
  = (text_lines (header username) ++ lines)%list.
Proof.
  intros H. rewrite (text_lines_app _ _ (header_ends username)).
  now rewrite (text_lines_flat lines H).
Qed.

Lemma text_lines_header (username : string) :
  no_LF username = true ->
  text_lines (header username)
  = ["Recent Activity for " ++ username ++ ":" ++ LF; LF].
Proof.
  intros Hu. unfold header.
  assert (H1 : one_line ("Recent Activity for " ++ username ++ ":" ++ LF)).
  { repeat first [ apply one_line_LF
                 | apply one_line_cons; [first [assumption | reflexivity]|] ]. }
  replace ("Recent Activity for " ++ username ++ ":" ++ LF ++ LF)
    with (("Recent Activity for " ++ username ++ ":" ++ LF) ++ LF ++ EmptyString)
    by (now rewrite !append_assoc, !append_nil_r).
  rewrite (text_lines_cons _ _ H1).
  now rewrite (text_lines_cons LF EmptyString one_line_LF).
Qed.

Lemma append_LF_inj (a b : string) : a ++ LF = b ++ LF -> a = b.
Proof.
  revert b. induction a as [|c a IH]; intros [|d b] H; simpl in H.
  - reflexivity.
  - injection H as _ H. destruct b; discriminate H.
  - injection H as _ H. destruct a; discriminate H.
  - injection H as -> H. f_equal. now apply IH.
Qed.

(** The line of an event is an item: it starts with "- " and ends with a
    line feed, and holds no other line feed when the texts substituted in
    it hold none. *)
Lemma renderEvent_item (U : unicode.Tables) (e : Event) :
  exists t,
    renderEvent U e = "- " ++ t ++ LF
    /\ (plain_line U e = true -> no_LF t = true).
Proof.
  destruct (renderEvent_dash U e) as [r Hr].
  destruct (renderEvent_ends U e) as [t Ht].
  exists (drop 2 t).
  assert (E : renderEvent U e = "- " ++ drop 2 t ++ LF).
  { rewrite Hr in Ht. rewrite Hr.
    destruct t as [|a [|b t]]; simpl in Ht.
    - discriminate Ht.
    - injection Ht as _ Ht. discriminate Ht.
    - injection Ht as _ _ Ht. now rewrite Ht. }
  split; [exact E|].
  intros Hplain. destruct (renderEvent_one_line U e Hplain) as (t' & Ht' & Hno).
  rewrite E in Ht'.
  change ("- " ++ drop 2 t ++ LF) with (("- " ++ drop 2 t) ++ LF) in Ht'.
  apply append_LF_inj in Ht'. rewrite <- Ht' in Hno.
  exact Hno.
Qed.

Lemma array_elems_app {T : Type} (into : json -> T -> option T) (zero : T)
    (a b : list json) (xa xb : list T) :
  array_elems into zero a = Some xa ->
  array_elems into zero b = Some xb ->
  array_elems into zero (a ++ b) = Some (xa ++ xb)%list.
Proof.
  revert xa. induction a as [|v a IH]; intros xa Ha Hb; cbn [array_elems app] in *.
  - now injection Ha as <-.
  - destruct (into v zero) as [x|]; [|discriminate].
    destruct (array_elems into zero a) as [xs|]; [|discriminate].
    injection Ha as <-. now rewrite (IH xs eq_refl Hb).
Qed.

(** Conversely, a line that is one line holds no line feed in the texts
    substituted in it. *)
Lemma one_line_plain (U : unicode.Tables) (e : Event) :
  one_line (renderEvent U e) -> plain_line U e = true.
Proof.
  intros (t & Ht & Hno). revert Ht.
  unfold plain_line, line_texts, renderEvent.
  repeat match goal with
         | |- context [String.eqb ?x ?y] => destruct (String.eqb x y)
         end;
  intros Ht; rewrite <- !append_assoc in Ht; apply append_LF_inj in Ht;
  rewrite <- Ht in Hno; rewrite !no_LF_app in Hno;
  repeat (apply andb_prop in Hno; let H := fresh "H" in destruct Hno as [Hno H]);
  cbn [forallb];
  repeat match goal with H : no_LF _ = true |- _ => rewrite H; clear H end;
  reflexivity.
Qed.

(** ** One line for each event *)

Section TextLines.
Variable U : unicode.Tables.
Variable http_Get : string -> get_result.
Variable type_error : json -> string.
Variable username : string.
Variable body : json_text.
Variable events : list Event.

Let out := getGithubActivity U http_Get type_error username.

Lemma run_text_lines :
  ok_response http_Get username body ->
  json_Unmarshal type_error body = inl events ->
  events <> [] ->
  forallb (plain_line U) events = true ->
  text_lines out
  = (text_lines (header username) ++ map (renderEvent U) events)%list.
Proof.
  intros Hok Hdec Hne Hplain. unfold out.
  rewrite (run_events U http_Get type_error username body Hok events Hdec Hne).
  apply text_lines_run. apply Forall_forall. intros l Hl.
  apply in_map_iff in Hl. destruct Hl as (e & <- & He).
  apply renderEvent_one_line. rewrite forallb_forall in Hplain. now apply Hplain.
Qed.

(** C8, amended.  For a decoded list of N events, none empty, in which no
    text substituted in a line holds a line feed, the lines of the output
    are those of the header followed by exactly N lines, and the i-th of
    these is the line of the i-th event.  The condition is the one that
    is needed: what an event prints is one line exactly when the texts
    substituted in it hold no line feed. *)
Theorem C8_lines_of_plain_events :
  ok_response http_Get username body ->
  json_Unmarshal type_error body = inl events ->
  events <> [] ->
  forallb (plain_line U) events = true ->
  text_lines out
  = (text_lines (header username) ++ map (renderEvent U) events)%list
  /\ List.length (text_lines out)
     = (List.length (text_lines (header username)) + List.length events)%nat
  /\ (forall i e,
        nth_error events i = Some e ->
        nth_error (text_lines out)
          (List.length (text_lines (header username)) + i)
        = Some (renderEvent U e))
  /\ (no_LF username = true ->
      text_lines out
      = ("Recent Activity for " ++ username ++ ":" ++ LF) :: LF
          :: map (renderEvent U) events)
  /\ (forall e, one_line (renderEvent U e) <-> plain_line U e = true).
Proof.
  intros Hok Hdec Hne Hplain.
  pose proof (run_text_lines Hok Hdec Hne Hplain) as E.
  split; [exact E|]. split; [|split; [|split]];
    [| | |intros e; split; [apply one_line_plain | apply renderEvent_one_line]].
  - now rewrite E, length_app, length_map.
  - intros i e Hi. rewrite E, nth_error_app2 by lia.
    replace (List.length (text_lines (header username)) + i
             - List.length (text_lines (header username)))%nat with i by lia.
    now rewrite nth_error_map, Hi.
  - intros Hu. rewrite E, (text_lines_header username Hu). reflexivity.
Qed.

End TextLines.

(** X13. An array of N elements that decodes to events in whose lines no
    substituted text holds a line feed, N not 0, gives the lines of the
    header followed by exactly N lines, one for each element of the
    array; each starts with "- ". *)
Theorem one_line_per_array_element
    (U : unicode.Tables) (http_Get : string -> get_result)
    (type_error : json -> string) (username : string)
    (elems : list json) (events : list Event) :
  ok_response http_Get username (Document (JArray elems)) ->
  json_Unmarshal type_error (Document (JArray elems)) = inl events ->
  elems <> [] ->
  forallb (plain_line U) events = true ->
  exists lines : list string,
    text_lines (getGithubActivity U http_Get type_error username)
    = (text_lines (header username) ++ lines)%list
    /\ List.length lines = List.length elems
    /\ Forall one_line lines
    /\ (forall l, In l lines -> starts_with "- " l).
Proof.
  intros Hok Hdec Hne Hplain.
  assert (Hlen : List.length events = List.length elems).
  { unfold json_Unmarshal, into_events, into_slice in Hdec.
    destruct (array_elems into_Event Event_zero elems) as [xs|] eqn:E;
      [|discriminate].
    injection Hdec as <-. now apply array_elems_length in E. }
  assert (Hev : events <> [])
    by (intros ->; destruct elems; [contradiction | discriminate]).
  exists (map (renderEvent U) events). split; [|split; [|split]].
  - exact (run_text_lines U http_Get type_error username _ events
             Hok Hdec Hev Hplain).
  - now rewrite length_map.
  - apply Forall_forall. intros l Hl. apply in_map_iff in Hl.
    destruct Hl as (e & <- & He). apply renderEvent_one_line.
    rewrite forallb_forall in Hplain. now apply Hplain.
  - intros l Hl. apply in_map_iff in Hl. destruct Hl as (e & <- & _).
    destruct (renderEvent_dash U e) as [t Ht]. now exists t.
Qed.


(** A closed instance of C8: two events, and after the two lines of the
    header two lines, in the order of the events. *)
Lemma C8_witness :
  text_lines
    (getGithubActivity ascii_only
       (octocat_answers 200 (Document (JArray [gollum_a_b; push_x_y])))
       type_error_text "octocat")
  = ["Recent Activity for octocat:" ++ LF; LF;
     "- Performed a GollumEvent on a/b" ++ LF;
     "- Pushed 3 commit(s) to x/y" ++ LF].
Proof.
  refine (proj1 (proj2 (proj2 (proj2
            (C8_lines_of_plain_events ascii_only
               (octocat_answers 200 (Document (JArray [gollum_a_b; push_x_y])))
               type_error_text "octocat"
               (Document (JArray [gollum_a_b; push_x_y]))
               [mkEvent "GollumEvent" "a/b" Payload_zero;
                mkEvent "PushEvent" "x/y"
                  (set_Commits Payload_zero [JObject []; JObject []; JObject []])]
               _ eq_refl _ eq_refl)))) eq_refl).
  - exists {| StatusCode := 200;
              Body := Read_ok (Document (JArray [gollum_a_b; push_x_y])) |}.
    repeat split; reflexivity.
  - discriminate.
Defined.

(** C8 as stated fails on a text that holds a line feed: one issues event
    whose title is "Bug", a line feed, "again" decodes to one event, and
    after the two lines of the header the output has two lines for it,
    whatever the tables of [unicode]. *)
Lemma C8_counterexample :
  json_Unmarshal type_error_text
    (Document (JArray [issues_a_b "opened" ("Bug" ++ LF ++ "again")]))
  = inl [mkEvent "IssuesEvent" "a/b"
           (set_Issue (set_Action Payload_zero "opened")
              {| Issue_Title := "Bug" ++ LF ++ "again" |})]
  /\ (forall U : unicode.Tables,
        text_lines
          (getGithubActivity U
             (octocat_answers 200
                (Document (JArray [issues_a_b "opened" ("Bug" ++ LF ++ "again")])))
             type_error_text "octocat")
        = ["Recent Activity for octocat:" ++ LF; LF;
           "- Opened an issue in a/b: " ++ quote ++ "Bug" ++ LF;
           "again" ++ quote ++ LF])
  /\ List.length
       ["Recent Activity for octocat:" ++ LF; LF;
        "- Opened an issue in a/b: " ++ quote ++ "Bug" ++ LF;
        "again" ++ quote ++ LF]
     <> (2 + 1)%nat.
Proof.
  split; [reflexivity|]. split; [intros U; reflexivity | discriminate].
Qed.

(** A closed instance of X13: two elements, two lines after the header. *)
Lemma one_line_per_array_element_witness :
  exists lines : list string,
    text_lines
      (getGithubActivity ascii_only
         (octocat_answers 200 (Document (JArray [gollum_a_b; push_x_y])))
         type_error_text "octocat")
    = (text_lines (header "octocat") ++ lines)%list
    /\ List.length lines = List.length [gollum_a_b; push_x_y]
    /\ Forall one_line lines
    /\ (forall l, In l lines -> starts_with "- " l).
Proof.
  refine (one_line_per_array_element ascii_only
            (octocat_answers 200 (Document (JArray [gollum_a_b; push_x_y])))
            type_error_text "octocat" [gollum_a_b; push_x_y]
            [mkEvent "GollumEvent" "a/b" Payload_zero;
             mkEvent "PushEvent" "x/y"
               (set_Commits Payload_zero [JObject []; JObject []; JObject []])]
            _ eq_refl _ eq_refl).
  - eexists. repeat split; reflexivity.
  - discriminate.
Defined.

(* ================================================================== *)
(** ** Fields that are not read *)


(** Out of the payload of a push, the action is left out and the issue
    is emptied. *)
Lemma push_payload_blanked :
  blanked (reads "PushEvent")
    [("action", JString "created");
     ("commits", JArray [JObject []; JObject []; JObject []]);
     ("issue", JObject [("title", JString "Bug")])]
    [("commits", JArray [JObject []; JObject []; JObject []]);
     ("issue", JObject [])].
Proof.
  apply blanked_absent; [reflexivity|].
  apply blanked_keep.
  apply blanked_empty; [reflexivity | intros f [= <-]; reflexivity |].
  apply blanked_nil.
Qed.

